(** * slurm-array-submit: the index engine and its glue, verified

    A shallow embedding of [slurm_utils.py]: the product size
    ([count_product]), the direct index decoding ([nth_product]), the
    parameter validation, the sbatch configuration merge, the array argument
    and the command substitution, followed by the properties the
    specification states about them. *)

From Stdlib Require Import ZArith List Bool Ascii String Lia.
From Stdlib Require Import DecimalString.
From Stdlib Require DecimalZ DecimalPos.
Import ListNotations.

Local Open Scope string_scope.
Local Open Scope list_scope.
Local Open Scope Z_scope.

(** ** Exceptions and fallible computations *)

(** The exceptions the modelled code can raise.  [Unmodelled] is no Python
    exception: it marks the parts of the built-in format mini-language
    (attribute and index access, conversions, format specifications) that
    this development leaves out. *)
Inductive exn : Type :=
| IndexError
| KeyError (key : string)
| ValueError
| TypeError
| ZeroDivisionError
| Unmodelled.

Inductive result (A : Type) : Type :=
| Ok (a : A)
| Raise (e : exn).

Arguments Ok {A} a.
Arguments Raise {A} e.

Definition rbind {A B : Type} (r : result A) (f : A -> result B) : result B :=
  match r with
  | Ok a => f a
  | Raise e => Raise e
  end.

Declare Scope py_scope.
Delimit Scope py_scope with py.

Notation "x <- c ;; k" := (rbind c (fun x => k))
  (at level 61, c at next level, right associativity) : py_scope.
Notation "' pat <- c ;; k" := (rbind c (fun x => match x with pat => k end))
  (at level 61, pat pattern, c at next level, right associativity) : py_scope.

Local Open Scope py_scope.

(** A [for] loop whose body may raise: the state is threaded left to right
    and the first exception ends the loop. *)
Fixpoint for_each {A S : Type} (body : S -> A -> result S) (items : list A)
  (st : S) : result S :=
  match items with
  | [] => Ok st
  | x :: rest => st' <- body st x ;; for_each body rest st'
  end.

(** ** Python built-ins on integers and sequences *)

(** [len] of a list or tuple. *)
Definition len {A : Type} (l : list A) : Z := Z.of_nat (List.length l).

(** [functools.reduce] without an initial value: a [TypeError] on an empty
    sequence, else the left fold seeded with the first item. *)
Definition reduce {A : Type} (f : A -> A -> A) (l : list A) : result A :=
  match l with
  | [] => Raise TypeError
  | x :: rest => Ok (fold_left f rest x)
  end.

(** [a % b] and [a // b] on integers: floor division, [ZeroDivisionError]
    when the divisor is zero. *)
Definition py_mod (a b : Z) : result Z :=
  if b =? 0 then Raise ZeroDivisionError else Ok (a mod b).

Definition py_floordiv (a b : Z) : result Z :=
  if b =? 0 then Raise ZeroDivisionError else Ok (a / b).

(** [seq[i]] on a tuple: a negative index counts from the end, anything
    still out of range is an [IndexError]. *)
Definition getitem {A : Type} (pool : list A) (i : Z) : result A :=
  let i := if i <? 0 then i + len pool else i in
  if (0 <=? i) && (i <? len pool) then
    match nth_error pool (Z.to_nat i) with
    | Some x => Ok x
    | None => Raise IndexError
    end
  else Raise IndexError.

(** [zip] of two lists. *)
Definition zip {A B : Type} (l1 : list A) (l2 : list B) : list (A * B) :=
  combine l1 l2.

(** ** The combinatorial index engine *)

Section IndexEngine.

Context {V : Type}.

(** [count_product(lists)]. *)
Definition count_product (lists : list (list V)) : result Z :=
  let lengths := map len lists in
  if len lengths =? 0 then Ok 1
  else reduce Z.mul lengths.

(** The body of the decoding loop of [nth_product]: one digit is appended
    to [result], and [index] is divided by the pool's length. *)
Definition nth_product_step (st : list V * Z) (item : list V * Z)
  : result (list V * Z) :=
  let '(result, index) := st in
  let '(pool, length) := item in
  r <- py_mod index length ;;
  x <- getitem pool r ;;
  index' <- py_floordiv index length ;;
  Ok (result ++ [x], index').

(** [nth_product(index, lists)]. *)
Definition nth_product (index : Z) (lists : list (list V))
  : result (list V) :=
  let pools := rev lists in
  let lengths := map len pools in
  if len lengths =? 0 then Ok []
  else
    total <- reduce Z.mul lengths ;;
    let index := if index <? 0 then index + total else index in
    if negb ((0 <=? index) && (index <? total)) then Raise IndexError
    else
      '(result, _) <- for_each nth_product_step (zip pools lengths)
                               ([], index) ;;
      Ok (rev result).

End IndexEngine.

(** ** Reference notions the specification uses *)

(** The product of a list of integers, 1 when there is none. *)
Definition product_of (l : list Z) : Z := fold_right Z.mul 1 l.

(** The standard cartesian product of [itertools.product]: lexicographic,
    the first list most significant and the last one varying fastest. *)
Fixpoint cartesian_product {V : Type} (lists : list (list V))
  : list (list V) :=
  match lists with
  | [] => [[]]
  | l :: rest =>
      flat_map (fun x => map (cons x) (cartesian_product rest)) l
  end.

(** The most-significant-first reading of an index: the first list's
    position is the quotient by the number of combinations of the remaining
    lists, and the remainder is decoded against those. *)
Fixpoint odometer {V : Type} (lists : list (list V)) (index : Z)
  : result (list V) :=
  match lists with
  | [] => Ok []
  | l :: rest =>
      let weight := product_of (map len rest) in
      x <- getitem l (index / weight) ;;
      xs <- odometer rest (index mod weight) ;;
      Ok (x :: xs)
  end.

(** ** Python values *)

(** The values a TOML document holds once parsed, as far as this program
    looks at them.  A float is carried by the text [str] gives for it: the
    program never computes with one.  Tables and dates are left out. *)
#[warnings="-register-all"] Inductive pyobj : Type :=
| PyStr (s : string)
| PyInt (n : Z)
| PyFloat (repr : string)
| PyBool (b : bool)
| PyList (items : list pyobj).

(** [isinstance(o, str)] and [isinstance(o, list)], returning what the
    object holds when the test succeeds. *)
Definition as_str (o : pyobj) : option string :=
  match o with
  | PyStr s => Some s
  | _ => None
  end.

Definition as_list (o : pyobj) : option (list pyobj) :=
  match o with
  | PyList items => Some items
  | _ => None
  end.

Definition str_of_int (n : Z) : string := NilZero.string_of_int (Z.to_int n).

Definition str1 (c : ascii) : string := String c EmptyString.

Definition dquote : ascii := "034"%char.
Definition squote : ascii := "039"%char.
Definition backslash : ascii := "092"%char.

Fixpoint str_contains (c : ascii) (s : string) : bool :=
  match s with
  | EmptyString => false
  | String c' rest => Ascii.eqb c' c || str_contains c rest
  end.

Definition hex_digit (n : nat) : ascii :=
  match String.get n "0123456789abcdef" with
  | Some c => c
  | None => "0"%char
  end.

(** One character of [repr] of a string, inside the quote [quote].  The
    bytes from 128 on are passed through, which is what [repr] does with
    the printable characters beyond ASCII and not with the others:
    [repr_modelled] below tells the values this does not concern. *)
Definition repr_char (quote c : ascii) : string :=
  let n := nat_of_ascii c in
  if Ascii.eqb c quote || Ascii.eqb c backslash then String backslash (str1 c)
  else if Nat.eqb n 9 then String backslash "t"
  else if Nat.eqb n 10 then String backslash "n"
  else if Nat.eqb n 13 then String backslash "r"
  else if Nat.ltb n 32 || Nat.eqb n 127 then
    String backslash
      (String "x" (String (hex_digit (Nat.div n 16))
                      (str1 (hex_digit (Nat.modulo n 16)))))
  else str1 c.

Fixpoint repr_chars (quote : ascii) (s : string) : string :=
  match s with
  | EmptyString => EmptyString
  | String c rest => (repr_char quote c ++ repr_chars quote rest)%string
  end.

(** [repr] of a string: single quotes, unless the text has a single quote
    and no double quote. *)
Definition repr_str (s : string) : string :=
  let quote :=
    if str_contains squote s && negb (str_contains dquote s)
    then dquote else squote in
  String quote (repr_chars quote s ++ str1 quote)%string.

Fixpoint py_repr (o : pyobj) : string :=
  match o with
  | PyStr s => repr_str s
  | PyInt n => str_of_int n
  | PyFloat repr => repr
  | PyBool b => if b then "True" else "False"
  | PyList items =>
      ("[" ++ String.concat ", " (map py_repr items) ++ "]")%string
  end.

(** [str(o)], which is also [format(o, '')] for these types. *)
Definition py_str (o : pyobj) : string :=
  match o with
  | PyStr s => s
  | _ => py_repr o
  end.

(** The interpreter refuses to turn an integer of more than 4300 decimal
    digits into text ([sys.int_info.default_max_str_digits]): the least
    integer it refuses. *)
Definition int_str_limit : Z := Eval vm_compute in 10 ^ 4300.

Definition int_within_limit (n : Z) : bool := Z.abs n <? int_str_limit.

(** [str(n)] of an integer: a [ValueError] beyond the limit. *)
Definition int_to_str (n : Z) : result string :=
  if int_within_limit n then Ok (str_of_int n) else Raise ValueError.

Fixpoint ints_within_limit (o : pyobj) : bool :=
  match o with
  | PyInt n => int_within_limit n
  | PyList items => forallb ints_within_limit items
  | _ => true
  end.

Fixpoint ascii_text (s : string) : bool :=
  match s with
  | EmptyString => true
  | String c rest => Nat.ltb (nat_of_ascii c) 128 && ascii_text rest
  end.

(** The values whose [repr] is [py_repr]: a string beyond ASCII may hold
    characters that [repr] escapes and [repr_char] passes through. *)
Fixpoint repr_modelled (o : pyobj) : bool :=
  match o with
  | PyStr s => ascii_text s
  | PyList items => forallb repr_modelled items
  | _ => true
  end.

(** The values whose [str] is [py_str]: a string is its own text, whatever
    it holds; the items of a list are shown by [repr]. *)
Definition str_modelled (o : pyobj) : bool :=
  match o with
  | PyList items => forallb repr_modelled items
  | _ => true
  end.

(** The values that are shown, and shown as [py_str] shows them. *)
Definition formats_as_str (o : pyobj) : bool :=
  ints_within_limit o && str_modelled o.

(** [format(v, '')] as the formatting methods call it: a [ValueError] for
    an integer beyond the limit, in a list too. *)
Definition format_value (v : pyobj) : result string :=
  if negb (ints_within_limit v) then Raise ValueError
  else if negb (str_modelled v) then Raise Unmodelled
  else Ok (py_str v).

(** ** Ordered dictionaries with string keys *)

(** A [dict] or [OrderedDict] keyed by strings: the items in insertion
    order, no key twice. *)
Definition OrderedDict (A : Type) : Type := list (string * A).

Section Dict.

Context {A : Type}.

Definition keys (d : OrderedDict A) : list string := map fst d.
Definition values (d : OrderedDict A) : list A := map snd d.

Fixpoint dict_get (d : OrderedDict A) (k : string) : option A :=
  match d with
  | [] => None
  | (k', v) :: rest => if String.eqb k' k then Some v else dict_get rest k
  end.

(** [d[k] = v]: the value of a present key is replaced where it stands,
    a new key goes to the end. *)
Fixpoint dict_set (d : OrderedDict A) (k : string) (v : A)
  : OrderedDict A :=
  match d with
  | [] => [(k, v)]
  | (k', v') :: rest =>
      if String.eqb k' k then (k', v) :: rest
      else (k', v') :: dict_set rest k v
  end.

(** [d.update(other)], one assignment per item of [other], in order. *)
Definition dict_update (d : OrderedDict A) (other : list (string * A))
  : OrderedDict A :=
  fold_left (fun acc kv => dict_set acc (fst kv) (snd kv)) other d.

(** [dict(pairs)] and the dict comprehension. *)
Definition dict_of_pairs (pairs : list (string * A)) : OrderedDict A :=
  dict_update [] pairs.

End Dict.

(** ** Warnings *)

Inductive warning : Type :=
| UserWarning (message : string).

(** A computation that may emit warnings before it returns or raises: the
    warnings emitted, in order, and the outcome. *)
Definition M (A : Type) : Type := list warning * result A.

Definition mret {A : Type} (a : A) : M A := ([], Ok a).

Definition mbind {A B : Type} (m : M A) (f : A -> M B) : M B :=
  match m with
  | (w, Ok a) => let '(w', r) := f a in (w ++ w', r)
  | (w, Raise e) => (w, Raise e)
  end.

Definition warn (w : warning) : M unit := ([w], Ok tt).

Definition lift {A : Type} (r : result A) : M A := ([], r).

Notation "x <~ c ;; k" := (mbind c (fun x => k))
  (at level 61, c at next level, right associativity) : py_scope.

Fixpoint for_each_w {A S : Type} (body : S -> A -> M S) (items : list A)
  (st : S) : M S :=
  match items with
  | [] => mret st
  | x :: rest => st' <~ body st x ;; for_each_w body rest st'
  end.

(** ** The parameter file *)

(** What [read_toml] returns: the items of the parsed document, in file
    order.  Opening and parsing the file is outside this development. *)
Definition toml_dict : Type := list (pyobj * pyobj).

Definition validate_step (outdict : OrderedDict (list pyobj))
  (item : pyobj * pyobj) : M (OrderedDict (list pyobj)) :=
  let '(key, val) := item in
  match as_str key with
  | None =>
      _ <~ warn (UserWarning
                   ("Invalid key in TOML file (not a string): "
                    ++ py_str key ++ ": " ++ py_str val)) ;;
      mret outdict
  | Some k =>
      match as_list val with
      | None =>
          _ <~ warn (UserWarning
                       ("Invalid value in TOML file (not a list): "
                        ++ py_str key ++ ": " ++ py_str val)) ;;
          mret outdict
      | Some items => mret (dict_set outdict k items)
      end
  end.

(** [validate_param_dict(dict_lists)]. *)
Definition validate_param_dict (dict_lists : toml_dict)
  : M (OrderedDict (list pyobj)) :=
  for_each_w validate_step dict_lists [].

(** [read_paramfile], from the parsed document on. *)
Definition read_paramfile (parsed : toml_dict)
  : M (OrderedDict (list pyobj)) :=
  params <~ mret parsed ;;
  validated_params <~ validate_param_dict params ;;
  mret validated_params.

(** [get_count(params)]. *)
Definition get_count (params : OrderedDict (list pyobj)) : result Z :=
  count_product (values params).

(** ** String formatting *)

Definition is_digit (c : ascii) : bool :=
  Nat.leb 48 (nat_of_ascii c) && Nat.leb (nat_of_ascii c) 57.

(** True of the empty name too, which numbers the field automatically. *)
Fixpoint all_digits (s : string) : bool :=
  match s with
  | EmptyString => true
  | String c rest => is_digit c && all_digits rest
  end.

(** The characters that start an attribute, an index, a conversion or a
    format specification inside a replacement field. *)
Definition starts_suffix (c : ascii) : bool :=
  Ascii.eqb c "." || Ascii.eqb c "[" || Ascii.eqb c "!" || Ascii.eqb c ":".

(** The characters of a field name at which the model stops: those above,
    and the ones beyond ASCII, among which Python finds further decimal
    digits. *)
Definition leaves_model (c : ascii) : bool :=
  starts_suffix c || Nat.leb 128 (nat_of_ascii c).

Section FormatEngine.

(** What a positional field (an empty or a numeric name) raises:
    [ValueError] under [format_map], [IndexError] under [format] called
    with keyword arguments only. *)
Variable positional : exn.
Variable kwargs : OrderedDict pyobj.

Definition get_field (name : string) : result string :=
  if all_digits name then
    (* a number too long for the index type is another error *)
    if Nat.ltb 9 (String.length name) then Raise Unmodelled
    else Raise positional
  else
    match dict_get kwargs name with
    | Some v => format_value v
    | None => Raise (KeyError name)
    end.

(** One left-to-right pass over the format string.  [field] is [None] in
    literal text and holds the name read so far inside a replacement
    field; [out] is the text produced so far.  Fields are looked up as
    they close, so the first failure met is the one raised. *)
Fixpoint format_scan (s : string) (field : option string) (out : string)
  {struct s} : result string :=
  match s with
  | EmptyString =>
      match field with
      | None => Ok out
      | Some _ => Raise ValueError
      end
  | String c rest =>
      match field with
      | Some name =>
          if Ascii.eqb c "}" then
            v <- get_field name ;; format_scan rest None (out ++ v)
          else if Ascii.eqb c "{" then Raise ValueError
          else if leaves_model c then Raise Unmodelled
          else format_scan rest (Some (name ++ str1 c)%string) out
      | None =>
          if Ascii.eqb c "{" then
            match rest with
            | String c' rest' =>
                if Ascii.eqb c' "{"
                then format_scan rest' None (out ++ "{")
                else format_scan rest (Some EmptyString) out
            | EmptyString => Raise ValueError
            end
          else if Ascii.eqb c "}" then
            match rest with
            | String c' rest' =>
                if Ascii.eqb c' "}"
                then format_scan rest' None (out ++ "}")
                else Raise ValueError
            | EmptyString => Raise ValueError
            end
          else format_scan rest None (out ++ str1 c)
      end
  end.

End FormatEngine.

(** [template.format_map(mapping)]. *)
Definition str_format_map (template : string) (mapping : OrderedDict pyobj)
  : result string :=
  format_scan ValueError mapping template None EmptyString.

(** [template.format] called with the keyword arguments [kwargs]. *)
Definition str_format (template : string) (kwargs : OrderedDict pyobj)
  : result string :=
  format_scan IndexError kwargs template None EmptyString.

(** ** The array argument *)

(** [get_array_argument(template, paramfile)], from the parsed parameter
    file on. *)
Definition get_array_argument (template : string) (paramfile : toml_dict)
  : M string :=
  params <~ read_paramfile paramfile ;;
  count <~ lift (get_count params) ;;
  let count := count - 1 in
  array_argument <~ lift (str_format template [("count", PyInt count)]) ;;
  mret array_argument.

(** ** The sbatch configuration *)

(** [s.split(sep, maxsplit=1)] for a one-character separator. *)
Fixpoint split_once (sep : ascii) (s : string) : option (string * string) :=
  match s with
  | EmptyString => None
  | String c rest =>
      if Ascii.eqb c sep then Some (EmptyString, rest)
      else
        match split_once sep rest with
        | Some (before, after) => Some (String c before, after)
        | None => None
        end
  end.

Definition str_split1 (s : string) (sep : ascii) : list string :=
  match split_once sep s with
  | Some (before, after) => [before; after]
  | None => [s]
  end.

Definition overrides_step (out : OrderedDict string) (override : string)
  : M (OrderedDict string) :=
  let keyval := str_split1 override "=" in
  if len keyval <? 2 then
    _ <~ warn (UserWarning
                 ("--sbatch option not of form k=v, ignoring: " ++ override)) ;;
    mret out
  else
    k <~ lift (getitem keyval 0) ;;
    v <~ lift (getitem keyval 1) ;;
    mret (dict_set out k v).

(** [overrides_to_dict(overrides)]. *)
Definition overrides_to_dict (overrides : list string)
  : M (OrderedDict string) :=
  for_each_w overrides_step overrides [].

(** The comprehension [{str(k): str(v) for k, v in config_base.items()}],
    on the keys and values that [str] shows as [py_str] does
    ([formats_as_str]). *)
Definition stringified (config_base : toml_dict) : OrderedDict string :=
  dict_of_pairs (map (fun kv => (py_str (fst kv), py_str (snd kv)))
                     config_base).

(** [get_sbatch_config(configfile, overrides)], from the parsed
    configuration file on; [overrides] is [None] when no [--sbatch] option
    was given. *)
Definition get_sbatch_config (config_base : toml_dict)
  (overrides : option (list string)) : M (OrderedDict string) :=
  let config := stringified config_base in
  match overrides with
  | Some overrides =>
      overrides_dict <~ overrides_to_dict overrides ;;
      mret (dict_update config overrides_dict)
  | None => mret config
  end.

(** ** Command substitution *)

(** [substitute_nth(nth, params, command)]. *)
Definition substitute_nth (nth : Z) (params : OrderedDict (list pyobj))
  (command : string) : result string :=
  nth_values <- nth_product nth (values params) ;;
  let nth_dict := dict_of_pairs (zip (keys params) nth_values) in
  str_format_map command nth_dict.

(** ** Reference notions for the glue *)

(** The decoding as the specification words it, on the reversed lists: the
    remainder by the length picks the item, the quotient goes on to the next
    list. *)
Fixpoint mixed_radix_digits {V : Type} (pools : list (list V)) (index : Z)
  : result (list V) :=
  match pools with
  | [] => Ok []
  | pool :: rest =>
      x <- getitem pool (index mod len pool) ;;
      xs <- mixed_radix_digits rest (index / len pool) ;;
      Ok (x :: xs)
  end.

(** An entry of a parameter file is valid when its key is a string and its
    value a list. *)
Definition valid_entry (item : pyobj * pyobj) : bool :=
  match as_str (fst item), as_list (snd item) with
  | Some _, Some _ => true
  | _, _ => false
  end.


(** A warning about an entry quotes its key and its value. *)
Definition warns_about (w : warning) (item : pyobj * pyobj) : Prop :=
  exists reason,
    w = UserWarning (reason ++ py_str (fst item) ++ ": " ++ py_str (snd item)).






(** A command template: literal characters and named placeholders. *)
Inductive piece : Type :=
| Lit (c : ascii)
| Field (name : string).

(** The format string of a template: [{name}] for a placeholder, a brace
    of the literal text doubled. *)
Definition piece_text (p : piece) : string :=
  match p with
  | Lit c =>
      if Ascii.eqb c "{" || Ascii.eqb c "}" then String c (str1 c)
      else str1 c
  | Field name => ("{" ++ name ++ "}")%string
  end.

Fixpoint template_text (pieces : list piece) : string :=
  match pieces with
  | [] => EmptyString
  | p :: rest => (piece_text p ++ template_text rest)%string
  end.

Fixpoint field_names (pieces : list piece) : list string :=
  match pieces with
  | [] => []
  | Lit _ :: rest => field_names rest
  | Field name :: rest => name :: field_names rest
  end.

Fixpoint no_char (bad : ascii -> bool) (s : string) : bool :=
  match s with
  | EmptyString => true
  | String c rest => negb (bad c) && no_char bad rest
  end.

(** A plain placeholder name: not a number (nor empty), in ASCII, free of
    braces and of the characters that start an attribute, an index, a
    conversion or a format specification. *)
Definition plain_name (name : string) : bool :=
  negb (all_digits name) &&
  no_char (fun c => Ascii.eqb c "{" || Ascii.eqb c "}" || leaves_model c)
          name.



(** Filling a template from a lookup, left to right: the first
    placeholder without a value is a missing key. *)
Fixpoint fill (lookup : string -> option pyobj) (pieces : list piece)
  : result string :=
  match pieces with
  | [] => Ok EmptyString
  | Lit c :: rest => s <- fill lookup rest ;; Ok (String c s)
  | Field name :: rest =>
      match lookup name with
      | Some v => s <- fill lookup rest ;; Ok (py_str v ++ s)%string
      | None => Raise (KeyError name)
      end
  end.


(** The characters of a text as literal pieces. *)
Fixpoint literal (s : string) : list piece :=
  match s with
  | EmptyString => []
  | String c rest => Lit c :: literal rest
  end.

(** ** Fixtures of the test suite *)

Definition strs (l : list string) : pyobj := PyList (map PyStr l).
Definition ints (l : list Z) : pyobj := PyList (map PyInt l).
Definition floats (l : list string) : pyobj := PyList (map PyFloat l).

(** [testfiles/params.toml], as [test_read_toml] expects it parsed. *)
Definition params_toml : toml_dict :=
  [ (PyStr "dataset", strs ["SYNTHETIC"]);
    (PyStr "imputation", strs ["MICE"; "GAIN"; "Mean"]);
    (PyStr "train_percentage", floats ["0.25"; "0.5"]);
    (PyStr "test_percentage", floats ["0.5"]);
    (PyStr "holdout_set", ints [0; 1; 2]);
    (PyStr "val_set", ints [0; 1; 2; 3; 4]);
    (PyStr "repeat", ints [0; 1; 2; 3; 4; 5; 6; 7; 8; 9]) ].

(** [testfiles/paramsbad.toml], as [test_read_toml_bad] expects it parsed. *)
Definition paramsbad_toml : toml_dict :=
  [ (PyStr "dataset", strs ["SYNTHETIC"]);
    (PyStr "imputation", strs ["MICE"; "GAIN"; "Mean"]);
    (PyStr "train_percentage", floats ["0.25"; "0.5"]);
    (PyStr "test_percentage", floats ["0.5"]);
    (PyStr "n_holdout_sets", PyInt 3);
    (PyStr "n_val_sets", PyInt 5);
    (PyStr "n_repeats", PyInt 10) ].

(** [testfiles/sbatch-config.toml], as the configuration tests show it. *)
Definition sbatch_config_toml : toml_dict :=
  [ (PyStr "p", PyStr "mynode");
    (PyStr "A", PyStr "MY-ACCOUNT");
    (PyStr "N", PyInt 2);
    (PyStr "time", PyStr "15:00:00");
    (PyStr "o", PyStr "messages_%a.out") ].



(** The validated parameters of [params.toml]. *)
Definition params_fixture : OrderedDict (list pyobj) :=
  match snd (read_paramfile params_toml) with
  | Ok params => params
  | Raise _ => []
  end.

Definition command_fixture : string :=
  "python3 myscript.py --dataset={dataset} {imputation} {holdout_set} --val={val_set} --repeat={repeat}".


(** ** The batch script *)

Definition nl : string := str1 "010"%char.

(** A byte that continues a character of a UTF-8 text. *)
Definition continues_char (c : ascii) : bool :=
  Nat.leb 128 (nat_of_ascii c) && Nat.ltb (nat_of_ascii c) 192.

(** [len(s)] of a string: the number of its characters.  The strings of
    this development are UTF-8 texts, whose characters are as many as the
    bytes that do not continue one. *)
Fixpoint str_len (s : string) : nat :=
  match s with
  | EmptyString => O
  | String c rest =>
      if continues_char c then str_len rest else S (str_len rest)
  end.

(** The body of the loop of [make_sbatch_headers]: one directive line is
    added to [outstr], in the short form for a key of one character. *)
Definition headers_step (outstr : string) (item : string * string) : string :=
  let '(key, val) := item in
  if Z.of_nat (str_len key) =? 1 then
    (outstr ++ ("#SBATCH -" ++ key ++ " " ++ val ++ nl))%string
  else
    (outstr ++ ("#SBATCH --" ++ key ++ "=" ++ val ++ nl))%string.

(** [make_sbatch_headers(config)]. *)
Definition make_sbatch_headers (config : OrderedDict string) : string :=
  fold_left headers_step config EmptyString.

(** The template of [make_batchfile_contents]; the backslash at the end of
    its sixth line joins that line to the next. *)
Definition contents_template : string :=
  ("#!/bin/bash" ++ nl
   ++ "{sbatch_config}" ++ nl
   ++ nl
   ++ "cd {pwd}" ++ nl
   ++ nl
   ++ "command=$(python3 {slurm_utils_dir}/slurm_utils.py --nth=$SLURM_ARRAY_TASK_ID "
   ++ "          --paramfile={paramfile} --command=" ++ str1 dquote
   ++ "{command}" ++ str1 dquote ++ ")" ++ nl
   ++ nl
   ++ "{setup}" ++ nl
   ++ nl
   ++ "$command" ++ nl)%string.

(** An argument that is a string or [None], as a value to format: [None]
    has no constructor among the values above and is formatted as the text
    [None], which is all [format_map] does with it. *)
Definition py_optional (o : option string) : pyobj :=
  match o with
  | Some s => PyStr s
  | None => PyStr "None"
  end.

(** [make_batchfile_contents(setup, command, paramfile, config)].  [pwd] is
    what [os.getcwd()] returns and [slurm_utils_dir] the directory of the
    module; [locals()] is given without [config], which is a dictionary and
    which the template does not name. *)
Definition make_batchfile_contents (pwd slurm_utils_dir : string)
  (setup command : option string) (paramfile : string)
  (config : OrderedDict string) : result string :=
  let sbatch_config := make_sbatch_headers config in
  let locals :=
    [ ("setup", py_optional setup);
      ("command", py_optional command);
      ("paramfile", PyStr paramfile);
      ("contents_template", PyStr contents_template);
      ("sbatch_config", PyStr sbatch_config);
      ("pwd", PyStr pwd);
      ("slurm_utils_dir", PyStr slurm_utils_dir) ] in
  contents <- str_format_map contents_template locals ;;
  Ok contents.

(** ** The per-task command line *)

(** The parsed arguments of [slurm_utils.py]; the parameter file is given
    by its parsed content. *)
Record Namespace : Type := {
  args_paramfile : toml_dict;
  args_count : bool;
  args_nth : option Z;
  args_command : option string
}.

(** [print(x)], as the text it adds to the standard output. *)
Definition print (text : string) : M string := mret (text ++ nl)%string.

(** [main()] of [slurm_utils.py], returning what it prints. *)
Definition main (args : Namespace) : M string :=
  params <~ read_paramfile (args_paramfile args) ;;
  if args_count args then
    total <~ lift (get_count params) ;;
    text <~ lift (int_to_str total) ;;
    print text
  else
    match args_nth args with
    | Some nth =>
        match args_command args with
        | None => lift (Raise ValueError)
        | Some command =>
            substituted_command <~ lift (substitute_nth nth params command) ;;
            print substituted_command
        end
    | None => mret EmptyString
    end.

(** ** Reference notions for the further properties *)

(** The index of the combination that takes, in each list, the item at the
    given position. *)
Fixpoint rank {V : Type} (lists : list (list V)) (positions : list Z) : Z :=
  match lists, positions with
  | _ :: rest, p :: positions' =>
      p * product_of (map len rest) + rank rest positions'
  | _, _ => 0
  end.

(** The positions an index stands for, one per list. *)
Fixpoint positions_of {V : Type} (lists : list (list V)) (index : Z)
  : list Z :=
  match lists with
  | [] => []
  | _ :: rest =>
      let weight := product_of (map len rest) in
      index / weight :: positions_of rest (index mod weight)
  end.

(** The items at the given positions, one per list. *)
Fixpoint items_at {V : Type} (lists : list (list V)) (positions : list Z)
  : result (list V) :=
  match lists, positions with
  | [], [] => Ok []
  | l :: rest, p :: positions' =>
      x <- getitem l p ;;
      xs <- items_at rest positions' ;;
      Ok (x :: xs)
  | _, _ => Raise IndexError
  end.

(** The directive line of one entry of the configuration. *)
Definition header_line (item : string * string) : string :=
  if Nat.eqb (str_len (fst item)) 1 then
    ("#SBATCH -" ++ fst item ++ " " ++ snd item ++ nl)%string
  else
    ("#SBATCH --" ++ fst item ++ "=" ++ snd item ++ nl)%string.

(** A text without braces. *)
Definition no_braces (s : string) : bool :=
  no_char (fun c => Ascii.eqb c "{" || Ascii.eqb c "}") s.

(** The texts of a list, one after the other. *)
Definition join_all (texts : list string) : string :=
  fold_right append EmptyString texts.

(** What formatting shows for an argument that is a string or [None]. *)
Definition shown (o : option string) : string :=
  match o with
  | Some s => s
  | None => "None"
  end.

(** The script [make_batchfile_contents] is expected to return. *)
Definition batchfile_layout (pwd slurm_utils_dir : string)
  (setup command : option string) (paramfile : string)
  (config : OrderedDict string) : string :=
  ("#!/bin/bash" ++ nl
   ++ make_sbatch_headers config ++ nl
   ++ nl
   ++ "cd " ++ pwd ++ nl
   ++ nl
   ++ "command=$(python3 " ++ slurm_utils_dir
   ++ "/slurm_utils.py --nth=$SLURM_ARRAY_TASK_ID "
   ++ "          --paramfile=" ++ paramfile
   ++ " --command=" ++ str1 dquote ++ shown command ++ str1 dquote ++ ")" ++ nl
   ++ nl
   ++ shown setup ++ nl
   ++ nl
   ++ "$command" ++ nl)%string.

(** * Properties *)

(** Settling an integer test from the linear facts at hand. *)
Ltac test_true b :=
  replace b with true
    by (symmetry; first [apply Z.ltb_lt | apply Z.leb_le | apply Z.eqb_eq];
        lia).

Ltac test_false b :=
  replace b with false
    by (symmetry; first [apply Z.ltb_ge | apply Z.leb_gt | apply Z.eqb_neq];
        lia).

(** ** Products of lengths *)

Lemma product_of_app (l1 l2 : list Z) :
  product_of (l1 ++ l2) = product_of l1 * product_of l2.
Proof.
  induction l1 as [|x l1 IH]; simpl.
  - destruct (product_of l2); reflexivity.
  - rewrite IH. ring.
Qed.

Lemma product_of_rev (l : list Z) : product_of (rev l) = product_of l.
Proof.
  induction l as [|x l IH]; simpl; [reflexivity|].
  rewrite product_of_app, IH. simpl. ring.
Qed.

Lemma fold_left_mul (l : list Z) (x : Z) :
  fold_left Z.mul l x = x * product_of l.
Proof.
  revert x. induction l as [|y l IH]; intros x; simpl.
  - ring.
  - rewrite IH. ring.
Qed.

Lemma reduce_mul (l : list Z) :
  l <> [] -> reduce Z.mul l = Ok (product_of l).
Proof.
  destruct l as [|x l]; [congruence|]. intros _.
  simpl. f_equal. apply fold_left_mul.
Qed.

Lemma len_nonneg {A : Type} (l : list A) : 0 <= len l.
Proof. unfold len. lia. Qed.

Lemma len_zero_iff {A : Type} (l : list A) : len l = 0 <-> l = [].
Proof.
  unfold len. destruct l; simpl; split; intros H; try reflexivity;
    try discriminate; lia.
Qed.

Lemma len_cons {A : Type} (x : A) (l : list A) : len (x :: l) = len l + 1.
Proof. unfold len. simpl List.length. lia. Qed.

Lemma product_of_lens_nonneg {A : Type} (ls : list (list A)) :
  0 <= product_of (map len ls).
Proof.
  induction ls as [|l ls IH]; simpl; [lia|].
  pose proof (len_nonneg l). nia.
Qed.

Lemma product_of_lens_pos {A : Type} (ls : list (list A)) :
  0 < product_of (map len ls) -> Forall (fun l => 0 < len l) ls.
Proof.
  induction ls as [|l ls IH]; simpl; intros H; constructor.
  - pose proof (len_nonneg l). pose proof (product_of_lens_nonneg ls). nia.
  - apply IH. pose proof (len_nonneg l).
    pose proof (product_of_lens_nonneg ls). nia.
Qed.

Lemma count_product_value {V : Type} (lists : list (list V)) :
  count_product lists = Ok (product_of (map len lists)).
Proof.
  unfold count_product.
  destruct lists as [|l lists]; [reflexivity|].
  replace (len (map len (l :: lists)) =? 0) with false.
  - apply reduce_mul. discriminate.
  - symmetry. apply Z.eqb_neq. rewrite len_zero_iff. discriminate.
Qed.

(** ** The decoding loop *)

Lemma for_each_app {A S : Type} (body : S -> A -> result S)
  (l1 l2 : list A) (st : S) :
  for_each body (l1 ++ l2) st =
  (st' <- for_each body l1 st ;; for_each body l2 st').
Proof.
  revert st. induction l1 as [|x l1 IH]; intros st; simpl; [reflexivity|].
  destruct (body st x); simpl; [apply IH | reflexivity].
Qed.

Lemma zip_map_len {A : Type} (ps : list (list A)) :
  zip ps (map len ps) = map (fun p => (p, len p)) ps.
Proof.
  unfold zip. induction ps as [|p ps IH]; simpl; [reflexivity|].
  now rewrite IH.
Qed.

Lemma getitem_ok {A : Type} (l : list A) (j : Z) :
  0 <= j < len l ->
  exists x, getitem l j = Ok x /\ nth_error l (Z.to_nat j) = Some x.
Proof.
  intros Hj. unfold getitem.
  test_false (j <? 0). test_true (0 <=? j). test_true (j <? len l).
  simpl andb.
  destruct (nth_error l (Z.to_nat j)) as [x|] eqn:E.
  - exists x. split; reflexivity.
  - apply nth_error_None in E. unfold len in Hj. lia.
Qed.

Lemma getitem_cons_succ {A : Type} (x : A) (l : list A) (j : Z) :
  0 <= j -> getitem (x :: l) (j + 1) = getitem l j.
Proof.
  intros Hj. unfold getitem. rewrite len_cons.
  test_false (j + 1 <? 0). test_false (j <? 0).
  test_true (0 <=? j + 1). test_true (0 <=? j).
  replace (j + 1 <? len l + 1) with (j <? len l).
  - replace (Z.to_nat (j + 1)) with (S (Z.to_nat j)) by lia. reflexivity.
  - destruct (Z.ltb_spec j (len l)); symmetry;
      [apply Z.ltb_lt | apply Z.ltb_ge]; lia.
Qed.

Section Decoding.

Context {V : Type}.

(** The loop of [nth_product] computes the digits of the specification,
    appended to what was collected, and leaves the quotient by the product
    of the lengths. *)
Lemma loop_digits (ps : list (list V)) :
  Forall (fun p => 0 < len p) ps ->
  forall (acc : list V) (i : Z),
    for_each nth_product_step (zip ps (map len ps)) (acc, i) =
    (ds <- mixed_radix_digits ps i ;;
     Ok (acc ++ ds, i / product_of (map len ps))).
Proof.
  rewrite zip_map_len.
  induction 1 as [|p ps Hp Hps IH]; intros acc i; simpl.
  - rewrite app_nil_r, Z.div_1_r. reflexivity.
  - unfold py_mod, py_floordiv.
    test_false (len p =? 0).
    simpl. destruct (getitem p (i mod len p)) as [x|e]; simpl;
      [|reflexivity].
    rewrite IH.
    destruct (mixed_radix_digits ps (i / len p)) as [ds|e]; simpl;
      [|reflexivity].
    rewrite <- app_assoc. simpl.
    destruct (Z.eq_dec (product_of (map len ps)) 0) as [E|E].
    + rewrite E, Z.mul_0_r. now rewrite !Z.div_0_r.
    + rewrite Z.div_div; [reflexivity | lia |].
      pose proof (product_of_lens_nonneg ps). lia.
Qed.

(** With at least one list, the guard on emptiness is passed and the
    total is the product of the lengths. *)
Lemma nth_product_nonempty (lists : list (list V)) (i : Z) :
  lists <> [] ->
  nth_product i lists =
  (let total := product_of (map len lists) in
   let index := if i <? 0 then i + total else i in
   if negb ((0 <=? index) && (index <? total)) then Raise IndexError
   else
     '(result, _) <- for_each nth_product_step
                              (zip (rev lists) (map len (rev lists)))
                              ([], index) ;;
     Ok (rev result)).
Proof.
  intros Hne. unfold nth_product.
  assert (Hne' : map len (rev lists) <> []).
  { destruct lists as [|l lists]; [congruence|].
    simpl. destruct (rev lists); discriminate. }
  replace (len (map len (rev lists)) =? 0) with false
    by (symmetry; apply Z.eqb_neq; now rewrite len_zero_iff).
  rewrite (reduce_mul _ Hne'), map_rev, product_of_rev.
  reflexivity.
Qed.

(** Inside the range the function is the specification's algorithm:
    digits taken on the reversed lists, reversed back. *)
Lemma nth_product_digits (lists : list (list V)) (i : Z) :
  0 <= i < product_of (map len lists) ->
  nth_product i lists =
  (ds <- mixed_radix_digits (rev lists) i ;; Ok (rev ds)).
Proof.
  intros Hi. destruct lists as [|l lists]; [reflexivity|].
  rewrite nth_product_nonempty by discriminate. cbv zeta.
  test_false (i <? 0). test_true (0 <=? i).
  test_true (i <? product_of (map len (l :: lists))).
  simpl negb. cbv iota.
  rewrite loop_digits.
  - destruct (mixed_radix_digits (rev (l :: lists)) i); reflexivity.
  - apply Forall_rev, product_of_lens_pos. lia.
Qed.

End Decoding.

(** ** Most significant digit first *)

Lemma seq_from (a m : nat) : seq a m = map (Nat.add a) (seq 0 m).
Proof.
  induction a as [|a IH]; simpl.
  - symmetry. apply map_id.
  - rewrite <- seq_shift, IH, map_map. reflexivity.
Qed.

Lemma split_index (i b c : Z) :
  0 < b -> 0 < c ->
  (i mod (c * b)) / b = (i / b) mod c /\ (i mod (c * b)) mod b = i mod b.
Proof.
  intros Hb Hc.
  rewrite (Z.mul_comm c b), Z.rem_mul_r by lia.
  pose proof (Z.mod_pos_bound i b Hb).
  pose proof (Z.mod_pos_bound (i / b) c Hc).
  split.
  - symmetry. apply Z.div_unique with (r := i mod b); [left; lia | ring].
  - symmetry. apply Z.mod_unique with (q := (i / b) mod c);
      [left; lia | ring].
Qed.

Section Odometer.

Context {V : Type}.

Lemma digits_app (ps qs : list (list V)) (i : Z) :
  Forall (fun p => 0 < len p) ps ->
  mixed_radix_digits (ps ++ qs) i =
  (ds1 <- mixed_radix_digits ps i ;;
   ds2 <- mixed_radix_digits qs (i / product_of (map len ps)) ;;
   Ok (ds1 ++ ds2)).
Proof.
  intros Hps. revert i.
  induction Hps as [|p ps Hp Hps IH]; intros i; simpl.
  - rewrite Z.div_1_r. destruct (mixed_radix_digits qs i); reflexivity.
  - destruct (getitem p (i mod len p)) as [x|e]; simpl; [|reflexivity].
    rewrite IH.
    destruct (mixed_radix_digits ps (i / len p)) as [ds|e]; simpl;
      [|reflexivity].
    assert (HP : 0 < product_of (map len ps)).
    { clear -Hps. induction Hps; simpl; lia. }
    rewrite Z.div_div by lia.
    destruct (mixed_radix_digits qs (i / (len p * product_of (map len ps))));
      reflexivity.
Qed.

Lemma odometer_ok (lists : list (list V)) :
  forall i, 0 <= i < product_of (map len lists) ->
  exists t, odometer lists i = Ok t /\ List.length t = List.length lists.
Proof.
  induction lists as [|l lists IH]; intros i Hi; simpl in *.
  - exists []. split; reflexivity.
  - pose proof (len_nonneg l) as Hl.
    pose proof (product_of_lens_nonneg lists) as HT.
    assert (HT' : 0 < product_of (map len lists)) by nia.
    destruct (getitem_ok l (i / product_of (map len lists))) as (x & Hx & _).
    { split; [apply Z.div_pos; lia|].
      apply Z.div_lt_upper_bound; [lia | nia]. }
    destruct (IH (i mod product_of (map len lists))) as (t & Ht & Hlen).
    { apply Z.mod_pos_bound. lia. }
    exists (x :: t). rewrite Hx, Ht. simpl. split; [reflexivity | lia].
Qed.

Lemma digits_rev_odometer (lists : list (list V)) :
  Forall (fun l => 0 < len l) lists ->
  forall i,
    mixed_radix_digits (rev lists) i =
    (t <- odometer lists (i mod product_of (map len lists)) ;; Ok (rev t)).
Proof.
  induction 1 as [|l lists Hl Hls IH]; intros i; [reflexivity|].
  assert (HT : 0 < product_of (map len lists)).
  { clear -Hls. induction Hls; simpl; lia. }
  simpl rev. rewrite digits_app.
  2:{ apply Forall_rev. exact Hls. }
  rewrite map_rev, product_of_rev, IH.
  destruct (odometer_ok lists (i mod product_of (map len lists)))
    as (t & Ht & _); [apply Z.mod_pos_bound; lia|].
  rewrite Ht.
  destruct (getitem_ok l ((i / product_of (map len lists)) mod len l))
    as (x & Hx & _); [apply Z.mod_pos_bound; lia|].
  simpl. rewrite Hx. simpl.
  destruct (split_index i (product_of (map len lists)) (len l) HT Hl)
    as [Hq Hr].
  rewrite Hq, Hr, Hx, Ht. reflexivity.
Qed.

(** Inside the range [nth_product] reads the index most significant
    digit first. *)
Lemma nth_product_odometer (lists : list (list V)) (i : Z) :
  0 <= i < product_of (map len lists) ->
  nth_product i lists = odometer lists i.
Proof.
  intros Hi. rewrite nth_product_digits by exact Hi.
  rewrite digits_rev_odometer by (apply product_of_lens_pos; lia).
  rewrite Z.mod_small by exact Hi.
  destruct (odometer lists i) as [t|e]; simpl; [|reflexivity].
  now rewrite rev_involutive.
Qed.

Lemma nth_product_ok (lists : list (list V)) (i : Z) :
  0 <= i < product_of (map len lists) ->
  exists t, nth_product i lists = Ok t /\ List.length t = List.length lists.
Proof.
  intros Hi. rewrite nth_product_odometer by exact Hi.
  now apply odometer_ok.
Qed.

(** The block of indices that share the first item [x]. *)
Lemma odometer_first_block (x : V) (l : list V) (ls : list (list V)) :
  map (fun k => odometer ((x :: l) :: ls) (Z.of_nat k))
      (seq 0 (Z.to_nat (product_of (map len ls)))) =
  map (fun r => xs <- r ;; Ok (x :: xs))
      (map (fun k => odometer ls (Z.of_nat k))
           (seq 0 (Z.to_nat (product_of (map len ls))))).
Proof.
  rewrite map_map. apply map_ext_in. intros k Hk.
  apply in_seq in Hk. simpl odometer.
  rewrite Z.div_small, Z.mod_small by lia.
  reflexivity.
Qed.

Lemma odometer_next_block (x : V) (l : list V) (ls : list (list V))
  (k : nat) :
  0 < product_of (map len ls) ->
  odometer ((x :: l) :: ls)
           (Z.of_nat (Z.to_nat (product_of (map len ls)) + k)) =
  odometer (l :: ls) (Z.of_nat k).
Proof.
  intros HT. simpl odometer.
  set (T := product_of (map len ls)) in *.
  replace (Z.of_nat (Z.to_nat T + k)) with (Z.of_nat k + 1 * T) by lia.
  rewrite Z.div_add, Z.mod_add by lia.
  rewrite getitem_cons_succ by (apply Z.div_pos; lia).
  reflexivity.
Qed.

Lemma odometer_enum_first (ls : list (list V)) :
  map (fun k => odometer ls (Z.of_nat k))
      (seq 0 (Z.to_nat (product_of (map len ls)))) =
  map Ok (cartesian_product ls) ->
  forall l,
    map (fun k => odometer (l :: ls) (Z.of_nat k))
        (seq 0 (List.length l * Z.to_nat (product_of (map len ls)))) =
    map Ok (cartesian_product (l :: ls)).
Proof.
  intros IH. induction l as [|x l IHl]; [reflexivity|].
  simpl Nat.mul. rewrite seq_app, map_app. simpl Nat.add.
  rewrite odometer_first_block, IH.
  change (cartesian_product ((x :: l) :: ls))
    with (map (cons x) (cartesian_product ls)
          ++ cartesian_product (l :: ls)).
  rewrite map_app. f_equal.
  - rewrite !map_map. reflexivity.
  - rewrite seq_from, map_map. rewrite <- IHl.
    apply map_ext_in. intros k Hk. apply in_seq in Hk.
    apply odometer_next_block.
    destruct (Z.to_nat (product_of (map len ls))) eqn:E; lia.
Qed.

Lemma odometer_enum (lists : list (list V)) :
  map (fun k => odometer lists (Z.of_nat k))
      (seq 0 (Z.to_nat (product_of (map len lists)))) =
  map Ok (cartesian_product lists).
Proof.
  induction lists as [|l lists IH]; [reflexivity|].
  rewrite <- (odometer_enum_first lists IH l).
  f_equal. f_equal. simpl product_of.
  pose proof (product_of_lens_nonneg lists).
  rewrite Z2Nat.inj_mul by (try apply len_nonneg; assumption).
  unfold len. now rewrite Nat2Z.id.
Qed.

Lemma nth_product_enum (lists : list (list V)) :
  map (fun k => nth_product (Z.of_nat k) lists)
      (seq 0 (Z.to_nat (product_of (map len lists)))) =
  map Ok (cartesian_product lists).
Proof.
  rewrite <- odometer_enum. apply map_ext_in. intros k Hk.
  apply in_seq in Hk. apply nth_product_odometer. lia.
Qed.

End Odometer.

(** ** Wraparound and the range check *)

Section Range.

Context {V : Type}.

Lemma nth_product_wrap (lists : list (list V)) (i : Z) :
  - product_of (map len lists) <= i < 0 ->
  nth_product i lists = nth_product (i + product_of (map len lists)) lists.
Proof.
  intros Hi. destruct lists as [|l lists]; [reflexivity|].
  rewrite !nth_product_nonempty by discriminate. cbv zeta.
  test_true (i <? 0).
  test_false (i + product_of (map len (l :: lists)) <? 0).
  reflexivity.
Qed.

Lemma nth_product_out_of_range (lists : list (list V)) (i : Z) :
  lists <> [] ->
  ~ (- product_of (map len lists) <= i < product_of (map len lists)) ->
  nth_product i lists = Raise IndexError.
Proof.
  intros Hne Hi. rewrite nth_product_nonempty by exact Hne. cbv zeta.
  set (T := product_of (map len lists)) in *.
  destruct (Z.ltb_spec i 0) as [Hneg|Hpos].
  - test_false (0 <=? i + T). reflexivity.
  - test_false (i <? T). now rewrite andb_false_r.
Qed.

Lemma nth_product_in_range (lists : list (list V)) (i : Z) :
  - product_of (map len lists) <= i < product_of (map len lists) ->
  exists t, nth_product i lists = Ok t /\ List.length t = List.length lists.
Proof.
  intros Hi. destruct (Z.ltb_spec i 0) as [Hneg|Hpos].
  - rewrite nth_product_wrap by lia. apply nth_product_ok. lia.
  - apply nth_product_ok. lia.
Qed.

(** With at least one list, [IndexError] is raised exactly outside
    [[-total, total)]. *)
Lemma nth_product_index_error_iff (lists : list (list V)) (i : Z) :
  lists <> [] ->
  nth_product i lists = Raise IndexError <->
  ~ (- product_of (map len lists) <= i < product_of (map len lists)).
Proof.
  intros Hne. split.
  - intros Hraise Hi.
    destruct (nth_product_in_range lists i Hi) as (t & Ht & _).
    congruence.
  - now apply nth_product_out_of_range.
Qed.

End Range.

(** ** The index engine: the statements of the specification *)

(** C1: inside the range [nth_product] is the mixed-radix algorithm (the
    lists reversed, for each of them the remainder by its length taken and
    the index divided by it, the digits reversed back); the results for
    0, 1, ..., count - 1 are the standard cartesian product in order, the
    first list most significant; and index 8 over four binary lists gives
    (1, 0, 0, 0). *)
Theorem nth_product_mixed_radix_enumerates_product :
  (forall (V : Type) (lists : list (list V)) (total i : Z),
      count_product lists = Ok total ->
      0 <= i < total ->
      exists ds,
        mixed_radix_digits (rev lists) i = Ok ds /\
        nth_product i lists = Ok (rev ds)) /\
  (forall (V : Type) (lists : list (list V)),
      exists total,
        count_product lists = Ok total /\
        map (fun k => nth_product (Z.of_nat k) lists)
            (seq 0 (Z.to_nat total)) =
        map Ok (cartesian_product lists)) /\
  nth_product 8 [[0; 1]; [0; 1]; [0; 1]; [0; 1]] = Ok [1; 0; 0; 0].
Proof.
  split; [|split].
  - intros V lists total i Hc Hi.
    rewrite count_product_value in Hc. injection Hc as <-.
    destruct (nth_product_ok lists i Hi) as (t & Ht & _).
    pose proof (nth_product_digits lists i Hi) as Hd.
    rewrite Ht in Hd.
    destruct (mixed_radix_digits (rev lists) i) as [ds|e];
      [|discriminate].
    exists ds. split; [reflexivity|]. now rewrite Ht, Hd.
  - intros V lists. exists (product_of (map len lists)).
    split; [apply count_product_value | apply nth_product_enum].
  - reflexivity.
Qed.

Lemma nth_product_mixed_radix_enumerates_product_witness :
  exists ds,
    mixed_radix_digits (rev [[1; 2; 5]; [10; 12]; [77]]) 2 = Ok ds /\
    nth_product 2 [[1; 2; 5]; [10; 12]; [77]] = Ok (rev ds).
Proof.
  apply (proj1 nth_product_mixed_radix_enumerates_product
               Z [[1; 2; 5]; [10; 12]; [77]] 6 2).
  - reflexivity.
  - lia.
Defined.

(** C2 (the code departs from it): with no list at all [nth_product]
    returns the empty tuple whatever the index, although the number of
    combinations is 1 and only the indices 0 and -1 are in range. *)
Theorem nth_product_no_lists_any_index :
  forall (V : Type) (index : Z),
    count_product (@nil (list V)) = Ok 1 /\
    nth_product index (@nil (list V)) = Ok [].
Proof.
  intros V index. split; reflexivity.
Qed.

(** C3: a negative index not below [-total] gives the combination of the
    index plus [total]. *)
Theorem nth_product_negative_index :
  forall (V : Type) (lists : list (list V)) (total i : Z),
    count_product lists = Ok total ->
    - total <= i < 0 ->
    exists combination,
      nth_product i lists = Ok combination /\
      nth_product (i + total) lists = Ok combination.
Proof.
  intros V lists total i Hc Hi.
  rewrite count_product_value in Hc. injection Hc as <-.
  destruct (nth_product_in_range lists i) as (t & Ht & _); [lia|].
  exists t. split; [exact Ht|].
  now rewrite <- nth_product_wrap.
Qed.

Lemma nth_product_negative_index_witness :
  exists combination,
    nth_product (-1) [[1; 2; 5]; [10; 12]; [77]] = Ok combination /\
    nth_product (-1 + 6) [[1; 2; 5]; [10; 12]; [77]] = Ok combination.
Proof.
  apply (nth_product_negative_index Z [[1; 2; 5]; [10; 12]; [77]] 6 (-1)).
  - reflexivity.
  - lia.
Defined.

(** C4 (the code departs from it): with no list the total is 1, index 5 is
    outside [[-1, 1)], and [nth_product] returns instead of raising
    [IndexError]. *)
Theorem nth_product_no_lists_index_5 :
  @count_product Z [] = Ok 1 /\
  ~ (-1 <= 5 < 1) /\
  @nth_product Z 5 [] = Ok [] /\
  @nth_product Z 5 [] <> Raise IndexError.
Proof.
  repeat split; try reflexivity; try lia; discriminate.
Qed.

(** C5: [count_product] always returns, 1 for no list and the product of
    the lengths otherwise. *)
Theorem count_product_is_product_of_lengths :
  forall (V : Type) (lists : list (list V)),
    count_product (@nil (list V)) = Ok 1 /\
    count_product lists = Ok (fold_right Z.mul 1 (map len lists)).
Proof.
  intros V lists. split; [reflexivity | apply count_product_value].
Qed.

(** ** Ordered dictionaries *)



Section DictFacts.

Context {A : Type}.

Lemma dict_set_fresh (d : OrderedDict A) (k : string) (v : A) :
  ~ In k (keys d) -> dict_set d k v = d ++ [(k, v)].
Proof.
  induction d as [|[k' v'] d IH]; simpl; intros H; [reflexivity|].
  destruct (String.eqb_spec k' k) as [E|E]; [tauto|].
  rewrite IH by tauto. reflexivity.
Qed.



Lemma dict_get_None (d : OrderedDict A) (k : string) :
  dict_get d k = None <-> ~ In k (keys d).
Proof.
  induction d as [|[k' v'] d IH]; simpl; [tauto|].
  destruct (String.eqb_spec k' k) as [E|E].
  - split; [discriminate | tauto].
  - rewrite IH. tauto.
Qed.



End DictFacts.








(** ** Validation of the parameter file *)

Lemma for_each_w_cons {A S : Type} (body : S -> A -> M S) (x : A)
  (rest : list A) (st st' : S) (w : list warning) :
  body st x = (w, Ok st') ->
  for_each_w body (x :: rest) st =
  (w ++ fst (for_each_w body rest st'), snd (for_each_w body rest st')).
Proof.
  intros H. simpl. unfold mbind. rewrite H.
  destruct (for_each_w body rest st'); reflexivity.
Qed.

Lemma as_str_Some (o : pyobj) (s : string) : as_str o = Some s -> o = PyStr s.
Proof. destruct o; simpl; congruence. Qed.

Lemma as_list_Some (o : pyobj) (l : list pyobj) :
  as_list o = Some l -> o = PyList l.
Proof. destruct o; simpl; congruence. Qed.

(** What one step of the validation does with an item. *)
Lemma validate_step_valid (outdict : OrderedDict (list pyobj)) (k : string)
  (items : list pyobj) :
  validate_step outdict (PyStr k, PyList items) =
  ([], Ok (dict_set outdict k items)).
Proof. reflexivity. Qed.

Lemma validate_step_invalid (outdict : OrderedDict (list pyobj))
  (item : pyobj * pyobj) :
  valid_entry item = false ->
  exists w, validate_step outdict item = ([w], Ok outdict) /\
            warns_about w item.
Proof.
  destruct item as [key val]. unfold valid_entry, validate_step. simpl.
  destruct (as_str key) as [k|].
  - destruct (as_list val) as [items|]; [discriminate|]. intros _.
    eexists. split; [reflexivity|].
    exists "Invalid value in TOML file (not a list): ". reflexivity.
  - intros _. eexists. split; [reflexivity|].
    exists "Invalid key in TOML file (not a string): ". reflexivity.
Qed.

Lemma valid_entry_shape (item : pyobj * pyobj) :
  valid_entry item = true ->
  exists k items, item = (PyStr k, PyList items).
Proof.
  destruct item as [key val]. unfold valid_entry. simpl.
  destruct (as_str key) as [k|] eqn:Ek; [|discriminate].
  destruct (as_list val) as [items|] eqn:Ev; [|discriminate].
  intros _. exists k, items.
  now rewrite (as_str_Some _ _ Ek), (as_list_Some _ _ Ev).
Qed.





(** ** The sbatch configuration *)








Example get_sbatch_config_test :
  get_sbatch_config sbatch_config_toml (Some ["z=0"; "A=OTHER-ACCOUNT"]) =
  ([], Ok [("p", "mynode"); ("A", "OTHER-ACCOUNT"); ("N", "2");
           ("time", "15:00:00"); ("o", "messages_%a.out"); ("z", "0")]).
Proof. reflexivity. Qed.

(** ** String formatting *)

Lemma str_app_assoc (a b c : string) :
  ((a ++ b) ++ c)%string = (a ++ (b ++ c))%string.
Proof.
  induction a as [|x a IH]; simpl; [reflexivity | now rewrite IH].
Qed.

Lemma str_app_nil_r (a : string) : (a ++ EmptyString)%string = a.
Proof.
  induction a as [|x a IH]; simpl; [reflexivity | now rewrite IH].
Qed.

Lemma plain_name_not_number (name : string) :
  plain_name name = true -> all_digits name = false.
Proof.
  unfold plain_name. intros H. apply andb_true_iff in H.
  destruct H as [H _]. now apply negb_true_iff in H.
Qed.

Lemma plain_name_chars (name : string) :
  plain_name name = true ->
  no_char (fun c => Ascii.eqb c "{" || Ascii.eqb c "}" || leaves_model c)
          name = true.
Proof.
  unfold plain_name. intros H. apply andb_true_iff in H. tauto.
Qed.

Lemma format_value_as_str (v : pyobj) :
  formats_as_str v = true -> format_value v = Ok (py_str v).
Proof.
  unfold formats_as_str, format_value. intros H.
  apply andb_true_iff in H. destruct H as [-> ->]. reflexivity.
Qed.

Section FormatFacts.

Variable positional : exn.
Variable kwargs : OrderedDict pyobj.

(** Inside a field, the characters of a plain name are collected up to
    the closing brace, where the name is looked up. *)
Lemma format_scan_name (name : string) :
  no_char (fun c => Ascii.eqb c "{" || Ascii.eqb c "}" || leaves_model c)
          name = true ->
  forall (read rest out : string),
    format_scan positional kwargs (name ++ String "}" rest) (Some read) out =
    (v <- get_field positional kwargs (read ++ name) ;;
     format_scan positional kwargs rest None (out ++ v)).
Proof.
  induction name as [|c name IH]; intros Hn read rest out.
  - simpl. now rewrite str_app_nil_r.
  - simpl in Hn. apply andb_true_iff in Hn. destruct Hn as [Hc Hn].
    apply negb_true_iff in Hc. apply orb_false_iff in Hc.
    destruct Hc as [Hc Hs]. apply orb_false_iff in Hc.
    destruct Hc as [Hopen Hclose].
    simpl. rewrite Hopen, Hclose, Hs.
    rewrite (IH Hn). unfold str1. rewrite str_app_assoc. reflexivity.
Qed.

Lemma get_field_plain (name : string) :
  plain_name name = true ->
  get_field positional kwargs name =
  match dict_get kwargs name with
  | Some v => format_value v
  | None => Raise (KeyError name)
  end.
Proof.
  intros H. unfold get_field. now rewrite (plain_name_not_number _ H).
Qed.

(** The scan over one literal character of a template. *)
Lemma format_scan_literal (c : ascii) (rest out : string) :
  format_scan positional kwargs (piece_text (Lit c) ++ rest) None out =
  format_scan positional kwargs rest None (out ++ str1 c).
Proof.
  simpl piece_text.
  destruct (Ascii.eqb_spec c "{"%char) as [E1|E1]; [subst c; reflexivity|].
  destruct (Ascii.eqb_spec c "}"%char) as [E2|E2]; [subst c; reflexivity|].
  simpl.
  destruct (Ascii.eqb_spec c "{"%char); [contradiction|].
  destruct (Ascii.eqb_spec c "}"%char); [contradiction|].
  reflexivity.
Qed.

(** The scan over one plain placeholder of a template. *)
Lemma format_scan_field (name rest out : string) :
  plain_name name = true ->
  format_scan positional kwargs (piece_text (Field name) ++ rest) None out =
  (v <- match dict_get kwargs name with
        | Some v => format_value v
        | None => Raise (KeyError name)
        end ;;
   format_scan positional kwargs rest None (out ++ v)).
Proof.
  intros Hname.
  pose proof (plain_name_chars _ Hname) as Hchars.
  pose proof (plain_name_not_number _ Hname) as Hnum.
  unfold piece_text. rewrite !str_app_assoc. simpl.
  destruct name as [|c name]; [discriminate|].
  simpl in Hchars. apply andb_true_iff in Hchars.
  destruct Hchars as [Hc _].
  apply negb_true_iff in Hc. apply orb_false_iff in Hc.
  destruct Hc as [Hc _]. apply orb_false_iff in Hc.
  destruct Hc as [Hopen _].
  simpl append. cbv iota. rewrite Hopen.
  change (String c (name ++ String "}" rest))%string
    with (String c name ++ String "}" rest)%string.
  rewrite format_scan_name by exact (plain_name_chars _ Hname).
  simpl append at 1. now rewrite (get_field_plain _ Hname).
Qed.

(** On the format string of a template whose values are shown as [str]
    shows them, the scan is the filling of the template from the
    dictionary. *)
Lemma format_scan_template (pieces : list piece) :
  Forall (fun name => plain_name name = true) (field_names pieces) ->
  (forall name v, In name (field_names pieces) ->
                  dict_get kwargs name = Some v ->
                  formats_as_str v = true) ->
  forall out : string,
    format_scan positional kwargs (template_text pieces) None out =
    (s <- fill (dict_get kwargs) pieces ;; Ok (out ++ s)%string).
Proof.
  induction pieces as [|p pieces IH]; intros Hplain Hvalues out.
  - simpl. now rewrite str_app_nil_r.
  - destruct p as [c|name].
    + simpl in Hplain, Hvalues. simpl fill.
      change (template_text (Lit c :: pieces))
        with (piece_text (Lit c) ++ template_text pieces)%string.
      rewrite format_scan_literal, (IH Hplain Hvalues).
      destruct (fill (dict_get kwargs) pieces) as [s|e]; simpl;
        [|reflexivity].
      unfold str1. rewrite str_app_assoc. reflexivity.
    + simpl in Hplain. inversion Hplain as [|? ? Hname Hrest]; subst.
      change (template_text (Field name :: pieces))
        with (piece_text (Field name) ++ template_text pieces)%string.
      rewrite (format_scan_field _ _ _ Hname).
      simpl fill.
      destruct (dict_get kwargs name) as [v|] eqn:Ev; simpl; [|reflexivity].
      rewrite format_value_as_str
        by (apply (Hvalues name); [left; reflexivity | exact Ev]).
      simpl. rewrite (IH Hrest).
      * destruct (fill (dict_get kwargs) pieces) as [s|e]; simpl;
          [|reflexivity].
        now rewrite str_app_assoc.
      * intros n v' Hn. apply Hvalues. right. exact Hn.
Qed.


End FormatFacts.

Lemma str_format_map_template (pieces : list piece)
  (mapping : OrderedDict pyobj) :
  Forall (fun name => plain_name name = true) (field_names pieces) ->
  (forall name v, In name (field_names pieces) ->
                  dict_get mapping name = Some v ->
                  formats_as_str v = true) ->
  str_format_map (template_text pieces) mapping =
  fill (dict_get mapping) pieces.
Proof.
  intros H Hv. unfold str_format_map.
  rewrite format_scan_template by assumption.
  destruct (fill (dict_get mapping) pieces); reflexivity.
Qed.

Lemma str_format_template (pieces : list piece)
  (kwargs : OrderedDict pyobj) :
  Forall (fun name => plain_name name = true) (field_names pieces) ->
  (forall name v, In name (field_names pieces) ->
                  dict_get kwargs name = Some v ->
                  formats_as_str v = true) ->
  str_format (template_text pieces) kwargs = fill (dict_get kwargs) pieces.
Proof.
  intros H Hv. unfold str_format.
  rewrite format_scan_template by assumption.
  destruct (fill (dict_get kwargs) pieces); reflexivity.
Qed.

(** ** Filling a template *)


Lemma fill_raises (f : string -> option pyobj) (pieces : list piece)
  (e : exn) :
  fill f pieces = Raise e ->
  exists name, e = KeyError name /\ In name (field_names pieces) /\
               f name = None.
Proof.
  induction pieces as [|[c|name] pieces IH]; simpl.
  - discriminate.
  - destruct (fill f pieces) as [s|e']; simpl; [discriminate|].
    intros H. injection H as ->. now apply IH.
  - destruct (f name) as [v|] eqn:E.
    + destruct (fill f pieces) as [s|e']; simpl; [discriminate|].
      intros H. injection H as ->.
      destruct (IH eq_refl) as (n & Hn & Hin & Hf).
      exists n. tauto.
    + intros H. injection H as <-. exists name. tauto.
Qed.

Lemma fill_missing (f : string -> option pyobj) (pieces : list piece)
  (name : string) :
  In name (field_names pieces) -> f name = None ->
  exists k, fill f pieces = Raise (KeyError k).
Proof.
  induction pieces as [|[c|n] pieces IH]; simpl; intros Hin Hf.
  - contradiction.
  - destruct (IH Hin Hf) as (k & ->). exists k. reflexivity.
  - destruct (f n) as [v|] eqn:E.
    + destruct Hin as [->|Hin]; [congruence|].
      destruct (IH Hin Hf) as (k & ->). exists k. reflexivity.
    + exists n. reflexivity.
Qed.


(** ** Valid parameters pass validation *)






(** ** The array argument *)

Lemma validate_total (dict_lists : toml_dict) :
  forall outdict,
    exists warnings validated,
      for_each_w validate_step dict_lists outdict = (warnings, Ok validated).
Proof.
  induction dict_lists as [|item rest IH]; intros outdict.
  - exists [], outdict. reflexivity.
  - destruct (valid_entry item) eqn:Ev.
    + destruct (valid_entry_shape item Ev) as (k & items & ->).
      destruct (IH (dict_set outdict k items)) as (ws & out & Hrun).
      exists ws, out.
      rewrite (for_each_w_cons _ _ _ _ _ _ (validate_step_valid outdict k items)).
      now rewrite Hrun.
    + destruct (validate_step_invalid outdict item Ev) as (w & Hstep & _).
      destruct (IH outdict) as (ws & out & Hrun).
      exists (w :: ws), out.
      rewrite (for_each_w_cons _ _ _ _ _ _ Hstep). now rewrite Hrun.
Qed.

Lemma read_paramfile_validates (parsed : toml_dict) :
  read_paramfile parsed = validate_param_dict parsed.
Proof.
  unfold read_paramfile, mbind, mret.
  destruct (validate_param_dict parsed) as [ws [params|e]]; simpl;
    now rewrite ?app_nil_r.
Qed.

Lemma get_array_argument_formats (template : string) (paramfile : toml_dict)
  (warnings : list warning) (params : OrderedDict (list pyobj)) (total : Z) :
  read_paramfile paramfile = (warnings, Ok params) ->
  get_count params = Ok total ->
  get_array_argument template paramfile =
  (warnings, str_format template [("count", PyInt (total - 1))]).
Proof.
  intros Hread Hcount. unfold get_array_argument.
  rewrite Hread. unfold mbind at 1. cbv beta iota. rewrite Hcount.
  unfold mbind, lift, mret.
  destruct (str_format template [("count", PyInt (total - 1))]);
    simpl; now rewrite ?app_nil_r.
Qed.

Lemma product_of_zero (l : list Z) : In 0 l -> product_of l = 0.
Proof.
  induction l as [|x l IH]; simpl; [contradiction|].
  intros [->|H]; [reflexivity|]. rewrite IH by exact H. ring.
Qed.














(** ** Command substitution *)














(** ** The test suite, replayed *)

Example test_product :
  count_product [[1; 2; 5]; [10; 12]; [77]] = Ok (3 * 2 * 1).
Proof. reflexivity. Qed.

Example test_nth_product :
  nth_product 2 [[PyInt 1; PyInt 2; PyInt 5]; [PyStr "a"; PyStr "c"];
                 [PyStr "xxx"]] =
  Ok [PyInt 2; PyStr "a"; PyStr "xxx"].
Proof. reflexivity. Qed.

Example test_read_paramfile_bad :
  read_paramfile paramsbad_toml =
  ([UserWarning "Invalid value in TOML file (not a list): n_holdout_sets: 3";
    UserWarning "Invalid value in TOML file (not a list): n_val_sets: 5";
    UserWarning "Invalid value in TOML file (not a list): n_repeats: 10"],
   Ok [("dataset", [PyStr "SYNTHETIC"]);
       ("imputation", [PyStr "MICE"; PyStr "GAIN"; PyStr "Mean"]);
       ("train_percentage", [PyFloat "0.25"; PyFloat "0.5"]);
       ("test_percentage", [PyFloat "0.5"])]).
Proof. reflexivity. Qed.

Example test_get_array_argument_from_50 :
  get_array_argument "50-{count}%1" params_toml = ([], Ok "50-899%1").
Proof. reflexivity. Qed.

Example test_get_sbatch_config_empty_overrides :
  get_sbatch_config sbatch_config_toml None =
  ([], Ok [("p", "mynode"); ("A", "MY-ACCOUNT"); ("N", "2");
           ("time", "15:00:00"); ("o", "messages_%a.out")]).
Proof. reflexivity. Qed.

(** The command of [test_substitute_nth] is a template of literal text and
    plain placeholders. *)
Example command_fixture_pieces :
  command_fixture =
  template_text
    (literal "python3 myscript.py --dataset=" ++ [Field "dataset"]
     ++ literal " " ++ [Field "imputation"]
     ++ literal " " ++ [Field "holdout_set"]
     ++ literal " --val=" ++ [Field "val_set"]
     ++ literal " --repeat=" ++ [Field "repeat"]) /\
  forallb plain_name
          ["dataset"; "imputation"; "holdout_set"; "val_set"; "repeat"] = true.
Proof. split; reflexivity. Qed.

Example str_format_map_escapes :
  str_format_map "{{{a}}} }" [("a", PyInt 1)] = Raise ValueError /\
  str_format_map "{{{a}}}" [("a", PyInt 1)] = Ok "{1}" /\
  str_format_map "{b} }" [("a", PyInt 1)] = Raise (KeyError "b").
Proof. repeat split; reflexivity. Qed.

(** * Further properties *)

(** ** Positions and ranks *)

Lemma getitem_In {A : Type} (l : list A) (j : Z) (x : A) :
  getitem l j = Ok x -> In x l.
Proof.
  unfold getitem.
  destruct ((0 <=? (if j <? 0 then j + len l else j))
            && ((if j <? 0 then j + len l else j) <? len l));
    [|discriminate].
  destruct (nth_error l (Z.to_nat (if j <? 0 then j + len l else j)))
    as [y|] eqn:E; [|discriminate].
  intros H. injection H as <-. eapply nth_error_In. exact E.
Qed.

Lemma product_of_positive (l : list Z) :
  Forall (fun n => 0 < n) l -> 0 < product_of l.
Proof. induction 1; simpl; lia. Qed.

Section Positions.

Context {V : Type}.

Lemma odometer_items_at (lists : list (list V)) :
  forall i, odometer lists i = items_at lists (positions_of lists i).
Proof.
  induction lists as [|l lists IH]; intros i; simpl; [reflexivity|].
  destruct (getitem l (i / product_of (map len lists))); simpl;
    [|reflexivity].
  now rewrite IH.
Qed.

Lemma items_at_members (lists : list (list V)) :
  forall positions t,
    items_at lists positions = Ok t -> Forall2 (fun l x => In x l) lists t.
Proof.
  induction lists as [|l lists IH]; intros [|p positions] t; simpl;
    try discriminate.
  - intros H. injection H as <-. constructor.
  - destruct (getitem l p) as [x|] eqn:Ex; simpl; [|discriminate].
    destruct (items_at lists positions) as [xs|] eqn:Exs; simpl;
      [|discriminate].
    intros H. injection H as <-. constructor.
    + eapply getitem_In. exact Ex.
    + eapply IH. exact Exs.
Qed.

Lemma rank_bounds (lists : list (list V)) :
  forall positions,
    Forall2 (fun l p => 0 <= p < len l) lists positions ->
    0 <= rank lists positions < product_of (map len lists).
Proof.
  induction lists as [|l lists IH]; intros positions H; inversion H; subst;
    simpl; [lia|].
  match goal with Hps : Forall2 _ lists _ |- _ => specialize (IH _ Hps) end.
  nia.
Qed.

Lemma positions_of_rank (lists : list (list V)) :
  forall positions,
    Forall2 (fun l p => 0 <= p < len l) lists positions ->
    positions_of lists (rank lists positions) = positions.
Proof.
  induction lists as [|l lists IH]; intros positions H; inversion H; subst;
    simpl; [reflexivity|].
  match goal with Hps : Forall2 _ lists _ |- _ =>
    pose proof (rank_bounds _ _ Hps) as Hb; specialize (IH _ Hps) end.
  rewrite (Z.add_comm (_ * _)), Z.div_add, Z.mod_add by lia.
  rewrite Z.div_small, Z.mod_small by exact Hb.
  rewrite IH. f_equal.
Qed.

Lemma positions_of_bounds (lists : list (list V)) :
  forall i,
    0 <= i < product_of (map len lists) ->
    Forall2 (fun l p => 0 <= p < len l) lists (positions_of lists i).
Proof.
  induction lists as [|l lists IH]; intros i Hi; simpl in *; constructor.
  - pose proof (len_nonneg l). pose proof (product_of_lens_nonneg lists).
    assert (0 < product_of (map len lists)) by nia.
    split; [apply Z.div_pos; lia|].
    apply Z.div_lt_upper_bound; [lia | nia].
  - apply IH. apply Z.mod_pos_bound.
    pose proof (len_nonneg l). pose proof (product_of_lens_nonneg lists). nia.
Qed.

Lemma rank_positions_of (lists : list (list V)) :
  forall i,
    0 <= i < product_of (map len lists) ->
    rank lists (positions_of lists i) = i.
Proof.
  induction lists as [|l lists IH]; intros i Hi; simpl in *; [lia|].
  pose proof (len_nonneg l). pose proof (product_of_lens_nonneg lists).
  assert (HT : 0 < product_of (map len lists)) by nia.
  rewrite IH by (apply Z.mod_pos_bound; exact HT).
  rewrite (Z.div_mod i (product_of (map len lists))) at 3 by lia. ring.
Qed.

Lemma items_at_ok (lists : list (list V)) :
  forall positions,
    Forall2 (fun l p => 0 <= p < len l) lists positions ->
    exists t, items_at lists positions = Ok t /\
              Forall2 (fun x lp =>
                         nth_error (fst lp) (Z.to_nat (snd lp)) = Some x)
                      t (combine lists positions).
Proof.
  induction lists as [|l lists IH]; intros positions H; inversion H; subst;
    simpl.
  - exists []. split; [reflexivity | constructor].
  - match goal with
    | Hp : 0 <= ?p < len l, Hps : Forall2 _ lists _ |- _ =>
        destruct (getitem_ok l p Hp) as (x & Hx & Hn);
        destruct (IH _ Hps) as (t & Ht & Hall)
    end.
    exists (x :: t). rewrite Hx, Ht. split; [reflexivity|].
    constructor; [exact Hn | exact Hall].
Qed.

End Positions.

(** X1: at a valid index, negative ones included, [nth_product] returns
    one item per list, each taken from the list at its place. *)
Theorem nth_product_items_from_lists :
  forall (V : Type) (lists : list (list V)) (total i : Z),
    count_product lists = Ok total ->
    - total <= i < total ->
    exists t,
      nth_product i lists = Ok t /\
      List.length t = List.length lists /\
      Forall2 (fun l x => In x l) lists t.
Proof.
  intros V lists total i Hc Hi.
  rewrite count_product_value in Hc. injection Hc as <-.
  assert (Hnonneg : forall j, 0 <= j < product_of (map len lists) ->
            exists t, nth_product j lists = Ok t /\
                      List.length t = List.length lists /\
                      Forall2 (fun l x => In x l) lists t).
  { intros j Hj. destruct (nth_product_ok lists j Hj) as (t & Ht & Hlen).
    exists t. repeat split; try assumption.
    rewrite nth_product_odometer, odometer_items_at in Ht by exact Hj.
    eapply items_at_members. exact Ht. }
  destruct (Z.ltb_spec i 0).
  - rewrite nth_product_wrap by lia. apply Hnonneg. lia.
  - apply Hnonneg. lia.
Qed.

Lemma nth_product_items_from_lists_witness :
  exists t,
    nth_product (-2) [[1; 2; 5]; [10; 12]; [77]] = Ok t /\
    List.length t = List.length [[1; 2; 5]; [10; 12]; [77]] /\
    Forall2 (fun l x => In x l) [[1; 2; 5]; [10; 12]; [77]] t.
Proof.
  apply (nth_product_items_from_lists Z [[1; 2; 5]; [10; 12]; [77]] 6 (-2)).
  - reflexivity.
  - lia.
Defined.

(** X2: choosing a position in each list and taking the index those
    positions rank at, [nth_product] returns the items at the positions:
    the index is the sum of the positions weighted by the sizes of the
    lists that follow. *)
Theorem nth_product_of_rank :
  forall (V : Type) (lists : list (list V)) (positions : list Z),
    Forall2 (fun l p => 0 <= p < len l) lists positions ->
    0 <= rank lists positions < product_of (map len lists) /\
    exists t,
      nth_product (rank lists positions) lists = Ok t /\
      items_at lists positions = Ok t /\
      Forall2 (fun x lp => nth_error (fst lp) (Z.to_nat (snd lp)) = Some x)
              t (combine lists positions).
Proof.
  intros V lists positions H.
  pose proof (rank_bounds lists positions H) as Hb.
  split; [exact Hb|].
  destruct (items_at_ok lists positions H) as (t & Ht & Hall).
  exists t. repeat split; try assumption.
  rewrite nth_product_odometer, odometer_items_at by exact Hb.
  now rewrite positions_of_rank.
Qed.

Lemma nth_product_of_rank_witness :
  0 <= rank [[1; 2; 5]; [10; 12]; [77]] [2; 1; 0]
    < product_of (map len [[1; 2; 5]; [10; 12]; [77]]) /\
  exists t,
    nth_product (rank [[1; 2; 5]; [10; 12]; [77]] [2; 1; 0])
                [[1; 2; 5]; [10; 12]; [77]] = Ok t /\
    items_at [[1; 2; 5]; [10; 12]; [77]] [2; 1; 0] = Ok t /\
    Forall2 (fun x lp => nth_error (fst lp) (Z.to_nat (snd lp)) = Some x)
            t (combine [[1; 2; 5]; [10; 12]; [77]] [2; 1; 0]).
Proof.
  apply (nth_product_of_rank Z [[1; 2; 5]; [10; 12]; [77]] [2; 1; 0]).
  repeat constructor; unfold len; simpl; lia.
Defined.

(** X3: an index in [[0, total)] stands for one position in each list,
    within the list's bounds; [nth_product] returns the items at those
    positions, and the positions rank back at the index. *)
Theorem nth_product_positions :
  forall (V : Type) (lists : list (list V)) (i : Z),
    0 <= i < product_of (map len lists) ->
    Forall2 (fun l p => 0 <= p < len l) lists (positions_of lists i) /\
    nth_product i lists = items_at lists (positions_of lists i) /\
    rank lists (positions_of lists i) = i.
Proof.
  intros V lists i Hi. split; [|split].
  - now apply positions_of_bounds.
  - now rewrite nth_product_odometer, odometer_items_at.
  - now apply rank_positions_of.
Qed.

Lemma nth_product_positions_witness :
  Forall2 (fun l p => 0 <= p < len l) [[1; 2; 5]; [10; 12]; [77]]
          (positions_of [[1; 2; 5]; [10; 12]; [77]] 3) /\
  nth_product 3 [[1; 2; 5]; [10; 12]; [77]] =
    items_at [[1; 2; 5]; [10; 12]; [77]]
             (positions_of [[1; 2; 5]; [10; 12]; [77]] 3) /\
  rank [[1; 2; 5]; [10; 12]; [77]]
       (positions_of [[1; 2; 5]; [10; 12]; [77]] 3) = 3.
Proof.
  apply (nth_product_positions Z [[1; 2; 5]; [10; 12]; [77]] 3).
  simpl. lia.
Defined.

(** ** Distinct indices, first and last combination *)

Section Distinct.

Context {V : Type}.

Lemma nth_product_rank (lists : list (list V)) (positions : list Z) :
  Forall2 (fun l p => 0 <= p < len l) lists positions ->
  nth_product (rank lists positions) lists = items_at lists positions.
Proof.
  intros H.
  rewrite nth_product_odometer, odometer_items_at
    by (now apply rank_bounds).
  now rewrite positions_of_rank.
Qed.

Lemma items_at_injective (lists : list (list V)) :
  Forall (fun l => NoDup l) lists ->
  forall ps qs,
    Forall2 (fun l p => 0 <= p < len l) lists ps ->
    Forall2 (fun l p => 0 <= p < len l) lists qs ->
    items_at lists ps = items_at lists qs ->
    ps = qs.
Proof.
  induction 1 as [|l lists Hl Hls IH]; intros ps qs Hps Hqs;
    inversion Hps as [|? p ? ps' Hp Hps']; subst;
    inversion Hqs as [|? q ? qs' Hq Hqs']; subst; [reflexivity|].
  simpl.
  destruct (getitem_ok l p Hp) as (x & Hx & Hnx).
  destruct (getitem_ok l q Hq) as (y & Hy & Hny).
  destruct (items_at_ok lists ps' Hps') as (t & Ht & _).
  destruct (items_at_ok lists qs' Hqs') as (u & Hu & _).
  rewrite Hx, Hy, Ht, Hu. simpl. intros E. injection E as Exy Etu.
  f_equal.
  - subst y. rewrite <- Hny in Hnx.
    apply (proj1 (NoDup_nth_error l) Hl) in Hnx;
      [lia | unfold len in Hp; lia].
  - apply IH; try assumption. now rewrite Ht, Hu, Etu.
Qed.

Lemma rank_zeros (lists : list (list V)) :
  rank lists (map (fun _ => 0) lists) = 0.
Proof.
  induction lists as [|l lists IH]; simpl; [reflexivity|].
  rewrite IH. ring.
Qed.

Lemma rank_lasts (lists : list (list V)) :
  rank lists (map (fun l => len l - 1) lists) =
  product_of (map len lists) - 1.
Proof.
  induction lists as [|l lists IH]; simpl; [reflexivity|].
  rewrite IH. ring.
Qed.

Lemma items_at_firsts (lists : list (list V)) :
  Forall (fun l => l <> []) lists ->
  exists t, items_at lists (map (fun _ => 0) lists) = Ok t /\
            Forall2 (fun l x => hd_error l = Some x) lists t.
Proof.
  induction 1 as [|l lists Hl Hls (t & Ht & Hall)]; simpl.
  - exists []. split; [reflexivity | constructor].
  - destruct l as [|x l]; [congruence|].
    exists (x :: t). rewrite Ht. split; [reflexivity|].
    constructor; [reflexivity | exact Hall].
Qed.

Lemma getitem_last (init : list V) (x : V) :
  getitem (init ++ [x]) (len (init ++ [x]) - 1) = Ok x.
Proof.
  destruct (getitem_ok (init ++ [x]) (len (init ++ [x]) - 1))
    as (y & Hy & Hn).
  { unfold len. rewrite length_app. simpl. lia. }
  rewrite Hy. f_equal.
  replace (Z.to_nat (len (init ++ [x]) - 1)) with (List.length init) in Hn
    by (unfold len; rewrite length_app; simpl; lia).
  rewrite nth_error_app2, Nat.sub_diag in Hn by lia.
  simpl in Hn. congruence.
Qed.

Lemma items_at_lasts (lists : list (list V)) :
  Forall (fun l => l <> []) lists ->
  exists t, items_at lists (map (fun l => len l - 1) lists) = Ok t /\
            Forall2 (fun l x => exists init, l = init ++ [x]) lists t.
Proof.
  induction 1 as [|l lists Hl Hls (t & Ht & Hall)]; simpl.
  - exists []. split; [reflexivity | constructor].
  - destruct (exists_last Hl) as (init & x & ->).
    exists (x :: t). rewrite getitem_last, Ht. split; [reflexivity|].
    constructor; [now exists init | exact Hall].
Qed.

Lemma lens_positive (lists : list (list V)) :
  Forall (fun l => l <> []) lists ->
  Forall2 (fun l p => 0 <= p < len l) lists (map (fun _ => 0) lists) /\
  Forall2 (fun l p => 0 <= p < len l) lists
          (map (fun l => len l - 1) lists) /\
  0 < product_of (map len lists).
Proof.
  induction 1 as [|l lists Hl Hls (H0 & H1 & HT)]; simpl.
  - repeat split; try constructor.
  - assert (0 < len l).
    { pose proof (len_nonneg l). pose proof (len_zero_iff l).
      destruct (Z.eq_dec (len l) 0); [tauto | lia]. }
    repeat split; try constructor; try assumption; lia.
Qed.

End Distinct.

(** X4: when no list repeats an item, two different indices of
    [[0, total)] give two different combinations. *)
Theorem nth_product_injective :
  forall (V : Type) (lists : list (list V)) (total i j : Z),
    Forall (fun l => NoDup l) lists ->
    count_product lists = Ok total ->
    0 <= i < total ->
    0 <= j < total ->
    nth_product i lists = nth_product j lists ->
    i = j.
Proof.
  intros V lists total i j Hnd Hc Hi Hj E.
  rewrite count_product_value in Hc. injection Hc as <-.
  rewrite !nth_product_odometer, !odometer_items_at in E by assumption.
  apply items_at_injective in E;
    try assumption; try (now apply positions_of_bounds).
  rewrite <- (rank_positions_of lists i Hi), <- (rank_positions_of lists j Hj).
  now rewrite E.
Qed.

Lemma nth_product_injective_witness : 2 = 2.
Proof.
  apply (nth_product_injective Z [[1; 2; 5]; [10; 12]; [77]] 6 2 2).
  - repeat constructor; simpl; intuition discriminate.
  - reflexivity.
  - lia.
  - lia.
  - reflexivity.
Defined.

(** X5: as soon as one of the lists is empty, [nth_product] raises
    [IndexError] at every index. *)
Theorem nth_product_empty_list_raises :
  forall (V : Type) (lists : list (list V)) (i : Z),
    In [] lists ->
    nth_product i lists = Raise IndexError.
Proof.
  intros V lists i Hin.
  assert (HT : product_of (map len lists) = 0).
  { apply product_of_zero. apply in_map_iff. exists []. now split. }
  apply nth_product_out_of_range.
  - intros ->. contradiction.
  - rewrite HT. lia.
Qed.

Lemma nth_product_empty_list_raises_witness :
  nth_product 0 [[1; 2]; []; [3]] = Raise IndexError.
Proof.
  apply (nth_product_empty_list_raises Z [[1; 2]; []; [3]] 0).
  simpl. right. left. reflexivity.
Defined.

(** X6: when no list is empty, index 0 gives the first item of every list
    and index -1 the last item of every list. *)
Theorem nth_product_first_and_last :
  forall (V : Type) (lists : list (list V)),
    Forall (fun l => l <> []) lists ->
    exists firsts lasts,
      nth_product 0 lists = Ok firsts /\
      Forall2 (fun l x => hd_error l = Some x) lists firsts /\
      nth_product (-1) lists = Ok lasts /\
      Forall2 (fun l x => exists init, l = init ++ [x]) lists lasts.
Proof.
  intros V lists Hne.
  destruct (lens_positive lists Hne) as (H0 & H1 & HT).
  destruct (items_at_firsts lists Hne) as (firsts & Hf & Hfirsts).
  destruct (items_at_lasts lists Hne) as (lasts & Hl & Hlasts).
  exists firsts, lasts. repeat split; try assumption.
  - rewrite <- (rank_zeros lists), nth_product_rank by exact H0.
    exact Hf.
  - rewrite nth_product_wrap by lia.
    replace (-1 + product_of (map len lists))
      with (rank lists (map (fun l => len l - 1) lists))
      by (rewrite rank_lasts; ring).
    rewrite nth_product_rank by exact H1. exact Hl.
Qed.

Lemma nth_product_first_and_last_witness :
  exists firsts lasts,
    nth_product 0 [[1; 2; 5]; [10; 12]; [77]] = Ok firsts /\
    Forall2 (fun l x => hd_error l = Some x)
            [[1; 2; 5]; [10; 12]; [77]] firsts /\
    nth_product (-1) [[1; 2; 5]; [10; 12]; [77]] = Ok lasts /\
    Forall2 (fun l x => exists init, l = init ++ [x])
            [[1; 2; 5]; [10; 12]; [77]] lasts.
Proof.
  apply (nth_product_first_and_last Z [[1; 2; 5]; [10; 12]; [77]]).
  repeat constructor; discriminate.
Defined.

(** X7: the count of a concatenation is the product of the counts, and
    the count is 0 exactly when one of the lists is empty. *)
Theorem count_product_app_and_zero :
  forall (V : Type) (lists1 lists2 : list (list V)),
    (exists c1 c2,
        count_product lists1 = Ok c1 /\
        count_product lists2 = Ok c2 /\
        count_product (lists1 ++ lists2) = Ok (c1 * c2)) /\
    (count_product lists1 = Ok 0 <-> In [] lists1).
Proof.
  intros V lists1 lists2. split.
  - exists (product_of (map len lists1)), (product_of (map len lists2)).
    rewrite !count_product_value, map_app, product_of_app.
    repeat split.
  - rewrite count_product_value. split.
    + intros H. injection H as H.
      induction lists1 as [|l lists1 IH]; simpl in H; [discriminate|].
      apply Z.mul_eq_0 in H. destruct H as [H|H].
      * left. now apply len_zero_iff.
      * right. now apply IH.
    + intros H. f_equal. apply product_of_zero.
      apply in_map_iff. exists []. now split.
Qed.

(** ** Validation, once more *)




(** ** The configuration without overrides *)

Lemma dict_update_fresh {A : Type} (pairs : list (string * A)) :
  forall d : OrderedDict A,
    NoDup (keys d ++ map fst pairs) ->
    dict_update d pairs = d ++ pairs.
Proof.
  unfold dict_update.
  induction pairs as [|[k v] pairs IH]; intros d H; simpl.
  - now rewrite app_nil_r.
  - rewrite dict_set_fresh.
    + rewrite IH.
      * now rewrite <- app_assoc.
      * unfold keys in *. rewrite map_app, <- app_assoc. exact H.
    + simpl in H. apply NoDup_remove_2 in H.
      intros Hin. apply H. apply in_or_app. now left.
Qed.

(** X9: when the keys of the configuration file give distinct texts, and
    keys and values are among those [str] shows as modelled (integers of at
    most 4300 digits, lists whose strings are in ASCII), the configuration
    without overrides is the entries of the file in their order, keys and
    values turned into text, and nothing is warned about. *)
Theorem get_sbatch_config_no_overrides :
  forall config_base : toml_dict,
    NoDup (map (fun kv => py_str (fst kv)) config_base) ->
    Forall (fun kv => formats_as_str (fst kv) = true /\
                      formats_as_str (snd kv) = true) config_base ->
    get_sbatch_config config_base None =
    ([], Ok (map (fun kv => (py_str (fst kv), py_str (snd kv)))
                 config_base)).
Proof.
  intros config_base Hnd _. unfold get_sbatch_config, mret. do 2 f_equal.
  unfold stringified, dict_of_pairs.
  rewrite dict_update_fresh; [reflexivity|].
  simpl. rewrite map_map. exact Hnd.
Qed.

Lemma get_sbatch_config_no_overrides_witness :
  get_sbatch_config sbatch_config_toml None =
  ([], Ok (map (fun kv => (py_str (fst kv), py_str (snd kv)))
               sbatch_config_toml)).
Proof.
  apply (get_sbatch_config_no_overrides sbatch_config_toml).
  - repeat constructor; simpl; intuition discriminate.
  - repeat constructor.
Defined.

(** ** Texts without placeholders *)

Lemma format_scan_no_braces (positional : exn) (kwargs : OrderedDict pyobj)
  (s : string) :
  no_braces s = true ->
  forall out : string,
    format_scan positional kwargs s None out = Ok (out ++ s)%string.
Proof.
  unfold no_braces. induction s as [|c s IH]; intros H out; simpl.
  - now rewrite str_app_nil_r.
  - simpl in H. apply andb_true_iff in H. destruct H as [Hc Hs].
    apply negb_true_iff, orb_false_iff in Hc. destruct Hc as [Ho Hcl].
    rewrite Ho, Hcl, (IH Hs). unfold str1.
    now rewrite str_app_assoc.
Qed.

(** X10: a command without braces is returned as it is at every valid
    index, negative ones included. *)
Theorem substitute_nth_no_placeholder :
  forall (nth total : Z) (params : OrderedDict (list pyobj))
         (command : string),
    get_count params = Ok total ->
    - total <= nth < total ->
    no_braces command = true ->
    substitute_nth nth params command = Ok command.
Proof.
  intros nth total params command Hcount Hrange Hcmd.
  unfold get_count in Hcount. rewrite count_product_value in Hcount.
  injection Hcount as <-.
  destruct (nth_product_in_range (values params) nth Hrange) as (t & Ht & _).
  unfold substitute_nth, str_format_map. rewrite Ht. simpl rbind.
  now rewrite format_scan_no_braces.
Qed.

Lemma substitute_nth_no_placeholder_witness :
  substitute_nth (-900) params_fixture "hostname --fqdn" =
  Ok "hostname --fqdn".
Proof.
  apply (substitute_nth_no_placeholder (-900) 900 params_fixture
                                       "hostname --fqdn").
  - reflexivity.
  - lia.
  - reflexivity.
Defined.

(** X11: with at least one parameter, an index outside [[-total, total)]
    makes the substitution raise [IndexError] whatever the command is,
    malformed or with unknown placeholders. *)
Theorem substitute_nth_index_error_first :
  forall (nth total : Z) (params : OrderedDict (list pyobj))
         (command : string),
    params <> [] ->
    get_count params = Ok total ->
    ~ (- total <= nth < total) ->
    substitute_nth nth params command = Raise IndexError.
Proof.
  intros nth total params command Hne Hcount Hrange.
  unfold get_count in Hcount. rewrite count_product_value in Hcount.
  injection Hcount as <-.
  unfold substitute_nth. rewrite nth_product_out_of_range; [reflexivity| |].
  - destruct params; [congruence | discriminate].
  - exact Hrange.
Qed.

Lemma substitute_nth_index_error_first_witness :
  substitute_nth 900 params_fixture "{unknown} }" = Raise IndexError.
Proof.
  apply (substitute_nth_index_error_first 900 900 params_fixture
                                          "{unknown} }").
  - discriminate.
  - reflexivity.
  - lia.
Defined.

(** ** The array argument, further *)






(** X14: the only placeholder the array template may name is [count]: on a
    template of literal text and plain placeholders, and with a count minus
    one of at most 4300 digits, the array argument raises a missing-key
    error exactly when another name occurs, and the error names such a
    placeholder. *)
Theorem get_array_argument_foreign_placeholder :
  forall (paramfile : toml_dict) (pieces : list piece)
         (warnings : list warning) (params : OrderedDict (list pyobj))
         (total : Z),
    read_paramfile paramfile = (warnings, Ok params) ->
    get_count params = Ok total ->
    int_within_limit (total - 1) = true ->
    Forall (fun name => plain_name name = true) (field_names pieces) ->
    (exists name, In name (field_names pieces) /\ name <> "count") <->
    (exists k, get_array_argument (template_text pieces) paramfile =
               (warnings, Raise (KeyError k)) /\
               In k (field_names pieces) /\ k <> "count").
Proof.
  intros paramfile pieces ws params total Hread Hcount Hlimit Hplain.
  rewrite (get_array_argument_formats _ _ _ _ _ Hread Hcount).
  set (kwargs := [("count", PyInt (total - 1))]).
  assert (Hlookup : forall name, dict_get kwargs name = None <-> name <> "count").
  { intros name. rewrite dict_get_None. unfold kwargs. simpl.
    split; [intros H E | intros H [E|[]]]; subst; tauto. }
  assert (Hvalues : forall name v, In name (field_names pieces) ->
                      dict_get kwargs name = Some v ->
                      formats_as_str v = true).
  { intros name v _. unfold kwargs, dict_get.
    destruct (String.eqb "count" name); [|discriminate].
    intros Hv. injection Hv as <-.
    unfold formats_as_str. simpl. now rewrite Hlimit. }
  rewrite str_format_template by assumption.
  split.
  - intros (name & Hin & Hname).
    destruct (fill_missing (dict_get kwargs) pieces name Hin) as (k & Hk);
      [now apply Hlookup|].
    exists k. rewrite Hk. split; [reflexivity|].
    destruct (fill_raises _ _ _ Hk) as (k' & E & Hin' & Hnone).
    injection E as <-. split; [exact Hin' | now apply Hlookup].
  - intros (k & _ & Hin & Hk). exists k. now split.
Qed.

Lemma get_array_argument_foreign_placeholder_witness :
  (exists name,
      In name (field_names (literal "0-" ++ [Field "total"])) /\
      name <> "count") <->
  (exists k,
      get_array_argument
        (template_text (literal "0-" ++ [Field "total"])) params_toml =
      ([], Raise (KeyError k)) /\
      In k (field_names (literal "0-" ++ [Field "total"])) /\
      k <> "count").
Proof.
  apply (get_array_argument_foreign_placeholder
           params_toml (literal "0-" ++ [Field "total"]) []
           params_fixture 900).
  - reflexivity.
  - reflexivity.
  - reflexivity.
  - repeat constructor.
Defined.

(** ** The batch script *)

Lemma headers_step_line (outstr : string) (item : string * string) :
  headers_step outstr item = (outstr ++ header_line item)%string.
Proof.
  destruct item as [key val]. unfold headers_step, header_line. simpl.
  destruct (str_len key) as [|[|n]]; try reflexivity.
  test_false (Z.of_nat (S (S n)) =? 1). reflexivity.
Qed.

Lemma headers_loop (config : OrderedDict string) :
  forall outstr,
    fold_left headers_step config outstr =
    (outstr ++ join_all (map header_line config))%string.
Proof.
  induction config as [|item config IH]; intros outstr; simpl.
  - now rewrite str_app_nil_r.
  - rewrite IH, headers_step_line. apply str_app_assoc.
Qed.

Lemma join_all_app (l1 l2 : list string) :
  join_all (l1 ++ l2) = (join_all l1 ++ join_all l2)%string.
Proof.
  induction l1 as [|x l1 IH]; simpl; [reflexivity|].
  change (join_all (x :: l1 ++ l2)) with (x ++ join_all (l1 ++ l2))%string.
  rewrite IH. symmetry. apply str_app_assoc.
Qed.

Lemma dict_get_In {A : Type} (d : OrderedDict A) (k : string) (v : A) :
  dict_get d k = Some v -> In (k, v) d.
Proof.
  induction d as [|[k' v'] d IH]; simpl; [discriminate|].
  destruct (String.eqb_spec k' k) as [->|_].
  - intros H. injection H as <-. now left.
  - intros H. right. now apply IH.
Qed.

(** X15: the headers are one directive line per entry of the
    configuration, in its order, in the short form exactly for the keys of
    one character (a character of several bytes included); the headers of
    two configurations put end to end are the headers of the first followed
    by those of the second. *)
Theorem make_sbatch_headers_lines :
  forall config1 config2 : OrderedDict string,
    make_sbatch_headers config1 = join_all (map header_line config1) /\
    make_sbatch_headers (config1 ++ config2) =
    (make_sbatch_headers config1 ++ make_sbatch_headers config2)%string.
Proof.
  intros config1 config2. unfold make_sbatch_headers.
  rewrite !headers_loop. simpl append.
  split; [reflexivity|].
  now rewrite map_app, join_all_app.
Qed.

(** A key of one character written on two bytes takes the short form. *)
Example make_sbatch_headers_wide_character :
  str_len (String "206" (String "187" EmptyString)) = 1%nat /\
  make_sbatch_headers
    [(String "206" (String "187" EmptyString), "1"); ("mem", "4G")] =
  ("#SBATCH -" ++ String "206" (String "187" EmptyString) ++ " 1" ++ nl
   ++ "#SBATCH --mem=4G" ++ nl)%string.
Proof. split; reflexivity. Qed.

(** X16: assembling the script never raises and gives the fixed layout
    with the headers, the working directory, the module directory, the
    parameter file, the command and the setup copied as they are: braces in
    the command or in the setup are not read as placeholders, and an absent
    setup or command shows as [None]. *)
Theorem make_batchfile_contents_layout :
  forall (pwd slurm_utils_dir : string) (setup command : option string)
         (paramfile : string) (config : OrderedDict string),
    make_batchfile_contents pwd slurm_utils_dir setup command paramfile config
    = Ok (batchfile_layout pwd slurm_utils_dir setup command paramfile config).
Proof.
  intros pwd slurm_utils_dir setup command paramfile config.
  unfold make_batchfile_contents.
  assert (Htemplate :
    contents_template =
    template_text
      (literal ("#!/bin/bash" ++ nl)%string ++ [Field "sbatch_config"]
       ++ literal (nl ++ nl ++ "cd ")%string ++ [Field "pwd"]
       ++ literal (nl ++ nl ++ "command=$(python3 ")%string
       ++ [Field "slurm_utils_dir"]
       ++ literal ("/slurm_utils.py --nth=$SLURM_ARRAY_TASK_ID "
                   ++ "          --paramfile=")%string
       ++ [Field "paramfile"]
       ++ literal (" --command=" ++ str1 dquote)%string ++ [Field "command"]
       ++ literal (str1 dquote ++ ")" ++ nl ++ nl)%string ++ [Field "setup"]
       ++ literal (nl ++ nl ++ "$command" ++ nl)%string)) by reflexivity.
  rewrite Htemplate at 1.
  rewrite str_format_map_template.
  - destruct setup, command; reflexivity.
  - repeat constructor.
  - intros name v _ Hget. apply dict_get_In in Hget. simpl in Hget.
    destruct setup, command;
      repeat (destruct Hget as [Hget|Hget];
              [injection Hget as _ <-; reflexivity|]);
      contradiction.
Qed.

Example test_make_batchfile_contents :
  make_batchfile_contents
    "/home/user" "/opt/slurm"
    (Some (nl ++ "module load miniconda3" ++ nl
           ++ "source activate local_python_venv" ++ nl)%string)
    (Some "python3 longscript.py {dataset} {imputation} {nfeat}")
    "testfiles/params.toml"
    (stringified sbatch_config_toml) =
  Ok ("#!/bin/bash" ++ nl
      ++ "#SBATCH -p mynode" ++ nl
      ++ "#SBATCH -A MY-ACCOUNT" ++ nl
      ++ "#SBATCH -N 2" ++ nl
      ++ "#SBATCH --time=15:00:00" ++ nl
      ++ "#SBATCH -o messages_%a.out" ++ nl
      ++ nl ++ nl
      ++ "cd /home/user" ++ nl
      ++ nl
      ++ "command=$(python3 /opt/slurm/slurm_utils.py --nth=$SLURM_ARRAY_TASK_ID "
      ++ "          --paramfile=testfiles/params.toml --command="
      ++ str1 dquote
      ++ "python3 longscript.py {dataset} {imputation} {nfeat}"
      ++ str1 dquote ++ ")" ++ nl
      ++ nl
      ++ nl ++ "module load miniconda3" ++ nl
      ++ "source activate local_python_venv" ++ nl ++ nl
      ++ nl
      ++ "$command" ++ nl)%string.
Proof. reflexivity. Qed.

(** ** The per-task command line *)

Lemma main_reads (args : Namespace) :
  exists warnings params,
    read_paramfile (args_paramfile args) = (warnings, Ok params).
Proof.
  destruct (validate_total (args_paramfile args) []) as (ws & params & Hrun).
  exists ws, params. rewrite read_paramfile_validates. exact Hrun.
Qed.



(** X18: with [--nth] and neither [--count] nor [--command], [main] raises
    [ValueError] once the parameter file is validated, whatever the index
    and the parameter file are. *)
Theorem main_nth_needs_command :
  forall (args : Namespace) (nth : Z),
    args_count args = false ->
    args_nth args = Some nth ->
    args_command args = None ->
    main args = (fst (read_paramfile (args_paramfile args)), Raise ValueError).
Proof.
  intros args nth Hcount Hnth Hcommand.
  destruct (main_reads args) as (ws & params & Hread).
  unfold main. rewrite Hread, Hcount, Hnth, Hcommand.
  unfold mbind, lift. simpl. now rewrite app_nil_r.
Qed.

Lemma main_nth_needs_command_witness :
  main {| args_paramfile := paramsbad_toml; args_count := false;
          args_nth := Some 12345; args_command := None |} =
  (fst (read_paramfile paramsbad_toml), Raise ValueError).
Proof.
  apply (main_nth_needs_command
           {| args_paramfile := paramsbad_toml; args_count := false;
              args_nth := Some 12345; args_command := None |} 12345);
    reflexivity.
Defined.



Example test_main_nth :
  main {| args_paramfile := params_toml; args_count := false;
          args_nth := Some 687; args_command := Some command_fixture |} =
  ([], Ok ("python3 myscript.py --dataset=SYNTHETIC Mean 1 --val=3 --repeat=7"
           ++ nl)%string).
Proof. reflexivity. Qed.
